(** * T-shirt designer: element store, placement gestures and export workflow

    A shallow embedding of the state logic of [src/App.tsx] (the [Designer]
    component) and [src/hooks/useExport.ts] (the [useExport] hook), with what
    [src/components/ExportModal.tsx] adds to it: the [disabled] attribute of
    the format buttons and the place where the error message is displayed.
    The theme, the texture slider and the garment drawing hold no state that
    the element store or the export workflow reads, and are left out.

    React state is a record; every handler is a function on that record.  A
    handler that suspends (the [FileReader] callback of [handleImageUpload],
    the [await] of [exportAsFile], the [setTimeout] of [handleOpenExport])
    leaves a pending task holding the variables its closure captured at the
    render in which it was created; the task is resumed by a later event with
    the browser's response.

    The editor panel and the export modal are children of [AnimatePresence]
    and have an [exit] animation: when their condition turns false they stay
    in the document, as they were last rendered, until the animation is
    over.  Their handlers are then those of that last render, with the
    [elements], [selectedId], [isExporting] and [exportError] it had.  The
    state therefore also holds what of the two is in the document.  State
    updates made by one handler, or by one resumption of a suspended one, are
    rendered together. *)

From Stdlib Require Import List ZArith QArith Qround String Ascii Bool Lia DecimalString.
From Stdlib Require DecimalPos DecimalZ.
From Stdlib Require Import Lqa.
Import ListNotations.

Local Open Scope string_scope.
Local Open Scope Z_scope.

(** ** Data model ([App.tsx], lines 23-43) *)

Inductive View := front | back | sleeve_left | sleeve_right.

Inductive ElementType := text | image.

(** [number | string]: the type of [width] and [height]. *)
Inductive Dim :=
| DNum (n : Z)
| DStr (s : string).

(** JavaScript numbers are modelled by integers: the store never computes
    with them, it only keeps what the widgets and [parseInt] hand over. *)
Record DesignElement := mkElement {
  id : string;
  type : ElementType;
  content : string;
  x : Z;
  y : Z;
  width : Dim;
  height : Dim;
  rotation : Z;
  color : option string;
  fontSize : option Z;
  fontFamily : option string;
  view : View
}.

Record ShirtConfig := mkConfig {
  cfg_color : string;
  cfg_view : View
}.

(** [Partial<DesignElement>]: a field is [None] when the object literal does
    not carry the property. *)
Record Updates := mkUpdates {
  u_id : option string;
  u_type : option ElementType;
  u_content : option string;
  u_x : option Z;
  u_y : option Z;
  u_width : option Dim;
  u_height : option Dim;
  u_rotation : option Z;
  u_color : option (option string);
  u_fontSize : option (option Z);
  u_fontFamily : option (option string);
  u_view : option View
}.

Definition no_updates : Updates :=
  mkUpdates None None None None None None None None None None None None.

Definition override {A} (old : A) (new : option A) : A :=
  match new with
  | Some a => a
  | None => old
  end.

(** [{ ...el, ...updates }] *)
Definition spread (el : DesignElement) (u : Updates) : DesignElement :=
  {| id := override (id el) (u_id u);
     type := override (type el) (u_type u);
     content := override (content el) (u_content u);
     x := override (x el) (u_x u);
     y := override (y el) (u_y u);
     width := override (width el) (u_width u);
     height := override (height el) (u_height u);
     rotation := override (rotation el) (u_rotation u);
     color := override (color el) (u_color u);
     fontSize := override (fontSize el) (u_fontSize u);
     fontFamily := override (fontFamily el) (u_fontFamily u);
     view := override (view el) (u_view u) |}.

Definition view_eqb (a b : View) : bool :=
  match a, b with
  | front, front | back, back
  | sleeve_left, sleeve_left | sleeve_right, sleeve_right => true
  | _, _ => false
  end.

(** The string a [View] stands for. *)
Definition view_name (v : View) : string :=
  match v with
  | front => "front"
  | back => "back"
  | sleeve_left => "sleeve-left"
  | sleeve_right => "sleeve-right"
  end.

(** ** Export hook types ([useExport.ts]) *)

Inductive ExportFormat := png | jpg | pdf.

Inductive Orientation := landscape | portrait.

(** What the terminal side effect of an export hands to the browser. *)
Inductive Artifact :=
| PngFile
| JpgFile (white_background : bool)
| PdfFile (o : Orientation) (page_w page_h : Z).

Record Download := mkDownload {
  d_name : string;
  d_artifact : Artifact
}.

Record Canvas := mkCanvas {
  canvas_width : Z;
  canvas_height : Z
}.

(** A value that reaches a [catch] clause. *)
Inductive Thrown :=
| ErrorObject (message : string)
| OtherValue.

(** An awaited promise either settles with a value or stays pending for
    ever. *)
Inductive Awaited (A : Type) :=
| Settles (a : A)
| StaysPending.
Arguments Settles {A} a.
Arguments StaysPending {A}.

(** What the browser answers during one export attempt. *)
Record Browser := mkBrowser {
  (** [ref.current]: the bounding rectangle of the preview container, when
      the reference is attached. *)
  ref_current : option (Q * Q);
  (** [domtoimage.toPng]: the data URL, or [None] when the promise rejects. *)
  toPng : Z -> Z -> option string;
  (** Whether the [load] event of an image with that source ever fires. *)
  fires_onload : string -> bool;
  (** Whether [getContext('2d')] returns a context. *)
  has_context : bool;
  (** What the encoding branch of a format throws, if anything. *)
  encoder_throws : ExportFormat -> Canvas -> option Thrown;
  (** [Date.now()] *)
  date_now : Z
}.

(** ** Component state ([Designer], [App.tsx] lines 85-101)

    The six [useState] cells the claims are about, followed by what the
    component leaves outside React: the downloads it has triggered, in
    order, the asynchronous work it has started and that has not completed,
    and the editor panel and the export modal that are in the document, live
    or on their way out. *)

(** What runs after [await exportAsFile(format)]. *)
Inductive Continuation :=
| Bare
  (** [exportAsFile] called on its own. *)
| CloseModalUnless (closure_exportError : option string)
  (** The rest of [handleExportFormat]; [exportError] is the one of the
      render in which the callback was created. *).

Inductive Task :=
| ShowModalTimer
| FileReading (closure_elements : list DesignElement) (closure_config : ShirtConfig)
| Exporting (format : ExportFormat) (filename : string) (k : Continuation).

(** The editor panel as it was last rendered (lines 301-430): the [elements]
    that its [updateElement] and [deleteElement] map over, and the
    [selectedId] and [selectedElement] its fields are bound to. *)
Record PanelRender := mkPanel {
  panel_elements : list DesignElement;
  panel_selectedId : string;
  panel_selectedElement : DesignElement
}.

(** The export modal as it was last rendered ([ExportModal.tsx] lines 39-152):
    the [isExporting] that disables its format buttons, and the [exportError]
    and [filename] that its [onExport] closes over. *)
Record ModalRender := mkModal {
  modal_isExporting : bool;
  modal_exportError : option string;
  modal_filename : string
}.

Record Designer := mkDesigner {
  config : ShirtConfig;
  elements : list DesignElement;
  selectedId : option string;
  showExportModal : bool;
  isExporting : bool;
  exportError : option string;
  downloads : list Download;
  pending : list Task;
  dom_panel : option PanelRender;
  dom_modal : option ModalRender
}.

Definition initial : Designer :=
  {| config := {| cfg_color := "#ffffff"; cfg_view := front |};
     elements := [];
     selectedId := None;
     showExportModal := false;
     isExporting := false;
     exportError := None;
     downloads := [];
     pending := [];
     dom_panel := None;
     dom_modal := None |}.

Definition setConfig (c : ShirtConfig) (s : Designer) : Designer :=
  mkDesigner c (elements s) (selectedId s) (showExportModal s) (isExporting s)
             (exportError s) (downloads s) (pending s) (dom_panel s) (dom_modal s).

Definition setElements (els : list DesignElement) (s : Designer) : Designer :=
  mkDesigner (config s) els (selectedId s) (showExportModal s) (isExporting s)
             (exportError s) (downloads s) (pending s) (dom_panel s) (dom_modal s).

Definition setSelectedId (i : option string) (s : Designer) : Designer :=
  mkDesigner (config s) (elements s) i (showExportModal s) (isExporting s)
             (exportError s) (downloads s) (pending s) (dom_panel s) (dom_modal s).

Definition setShowExportModal (b : bool) (s : Designer) : Designer :=
  mkDesigner (config s) (elements s) (selectedId s) b (isExporting s)
             (exportError s) (downloads s) (pending s) (dom_panel s) (dom_modal s).

Definition setIsExporting (b : bool) (s : Designer) : Designer :=
  mkDesigner (config s) (elements s) (selectedId s) (showExportModal s) b
             (exportError s) (downloads s) (pending s) (dom_panel s) (dom_modal s).

Definition setExportError (e : option string) (s : Designer) : Designer :=
  mkDesigner (config s) (elements s) (selectedId s) (showExportModal s) (isExporting s)
             e (downloads s) (pending s) (dom_panel s) (dom_modal s).

(** [link.click()] and [pdf.save(...)]. *)
Definition trigger_download (d : Download) (s : Designer) : Designer :=
  mkDesigner (config s) (elements s) (selectedId s) (showExportModal s) (isExporting s)
             (exportError s) (downloads s ++ [d]) (pending s) (dom_panel s) (dom_modal s).

Definition set_pending (ts : list Task) (s : Designer) : Designer :=
  mkDesigner (config s) (elements s) (selectedId s) (showExportModal s) (isExporting s)
             (exportError s) (downloads s) ts (dom_panel s) (dom_modal s).

Definition set_dom (panel : option PanelRender) (modal : option ModalRender)
    (s : Designer) : Designer :=
  mkDesigner (config s) (elements s) (selectedId s) (showExportModal s) (isExporting s)
             (exportError s) (downloads s) (pending s) panel modal.

Definition suspend (t : Task) (s : Designer) : Designer :=
  set_pending (pending s ++ [t]) s.

(** ** Element store ([App.tsx] lines 103-155) *)

(** [Math.random().toString(36).substr(2, 9)], from the string that
    [Math.random().toString(36)] evaluates to. *)
Definition random_id (random_base36 : string) : string :=
  substring 2 9 random_base36.

Definition newText (random_base36 : string) (cfg : ShirtConfig) : DesignElement :=
  {| id := random_id random_base36;
     type := text;
     content := "YOUR TEXT";
     x := 100;
     y := 100;
     width := DStr "auto";
     height := DStr "auto";
     rotation := 0;
     color := Some (if String.eqb (cfg_color cfg) "#1a1a1a" then "#ffffff" else "#000000");
     fontSize := Some 24;
     fontFamily := Some "Inter";
     view := cfg_view cfg |}.

Definition addText (random_base36 : string) (s : Designer) : Designer :=
  let el := newText random_base36 (config s) in
  setSelectedId (Some (id el)) (setElements (elements s ++ [el]) s).

Definition newImage (random_base36 result : string) (cfg : ShirtConfig) : DesignElement :=
  {| id := random_id random_base36;
     type := image;
     content := result;
     x := 100;
     y := 100;
     width := DNum 150;
     height := DNum 150;
     rotation := 0;
     color := None;
     fontSize := None;
     fontFamily := None;
     view := cfg_view cfg |}.

(** [handleImageUpload] up to [reader.readAsDataURL(file)]: with a file, the
    [onload] callback is left pending with the [elements] and [config] of the
    current render. *)
Definition handleImageUpload (files : list string) (s : Designer) : Designer :=
  match hd_error files with
  | Some _ => suspend (FileReading (elements s) (config s)) s
  | None => s
  end.

(** The [reader.onload] callback. *)
Definition reader_onload (closure_elements : list DesignElement) (closure_config : ShirtConfig)
    (result random_base36 : string) (s : Designer) : Designer :=
  let el := newImage random_base36 result closure_config in
  setSelectedId (Some (id el)) (setElements (closure_elements ++ [el]) s).

(** [updateElement] and [deleteElement] (lines 145-152) call
    [setElements] on the [elements] of the render that created them:
    [closure_elements].  For a control of the current render these are the
    elements of the state. *)
Definition updateElement (closure_elements : list DesignElement) (i : string)
    (updates : Updates) (s : Designer) : Designer :=
  setElements
    (map (fun el => if String.eqb (id el) i then spread el updates else el)
         closure_elements) s.

Definition deleteElement (closure_elements : list DesignElement) (i : string)
    (s : Designer) : Designer :=
  setSelectedId None
    (setElements (filter (fun el => negb (String.eqb (id el) i)) closure_elements) s).

Definition filteredElements (s : Designer) : list DesignElement :=
  filter (fun el => view_eqb (view el) (cfg_view (config s))) (elements s).

Definition selectedElement (s : Designer) : option DesignElement :=
  match selectedId s with
  | Some i => find (fun e => String.eqb (id e) i) (elements s)
  | None => None
  end.

(** ** Export hook ([useExport.ts]) *)

(** [Math.round]: the nearest integer, halves towards plus infinity. *)
Definition Math_round (q : Q) : Z := Qfloor (q + (1 # 2)).

(** [captureCanvas] (lines 24-55).  A missing container and a rejected
    rendering both give [null]; the promise on [img.onload] has no rejecting
    side, so it settles only if the [load] event fires. *)
Definition captureCanvas (b : Browser) : Awaited (option Canvas) :=
  match ref_current b with
  | None => Settles None
  | Some (rect_width, rect_height) =>
      let width := Math_round rect_width in
      let height := Math_round rect_height in
      match toPng b width height with
      | None => Settles None
      | Some dataUrl =>
          if fires_onload b dataUrl
          then Settles (Some (mkCanvas width height))
          else StaysPending
      end
  end.

Definition timestamp_string (t : Z) : string :=
  NilZero.string_of_int (Z.to_int t).

(** The [try] block of [exportAsFile] after the capture (lines 63-103):
    either something is thrown or one download is triggered. *)
Definition export_try (filename : string) (format : ExportFormat) (b : Browser)
    (canvas : option Canvas) : Thrown + Download :=
  match canvas with
  | None => inl (ErrorObject "Failed to capture the design canvas.")
  | Some canvas =>
      match encoder_throws b format canvas with
      | Some thrown => inl thrown
      | None =>
          let timestamp := timestamp_string (date_now b) in
          inr match format with
              | png =>
                  mkDownload (filename ++ "-" ++ timestamp ++ ".png") PngFile
              | jpg =>
                  mkDownload (filename ++ "-" ++ timestamp ++ ".jpg")
                             (JpgFile (has_context b))
              | pdf =>
                  let imgWidth := canvas_width canvas in
                  let imgHeight := canvas_height canvas in
                  let orientation :=
                    if imgHeight <? imgWidth then landscape else portrait in
                  mkDownload (filename ++ "-" ++ timestamp ++ ".pdf")
                             (PdfFile orientation imgWidth imgHeight)
              end
      end
  end.

(** The [catch] clause (lines 104-107). *)
Definition catch_message (err : Thrown) : string :=
  match err with
  | ErrorObject message => message
  | OtherValue => "Export failed. Please try again."
  end.

(** [exportAsFile] up to its [await] (lines 58-62). *)
Definition exportAsFile_begin (s : Designer) : Designer :=
  setExportError None (setIsExporting true s).

(** [exportAsFile] from its [await] on, [finally] included. *)
Definition exportAsFile_resume (filename : string) (format : ExportFormat) (b : Browser)
    (s : Designer) : Awaited Designer :=
  match captureCanvas b with
  | StaysPending => StaysPending
  | Settles canvas =>
      let s1 :=
        match export_try filename format b canvas with
        | inl err => setExportError (Some (catch_message err)) s
        | inr d => trigger_download d s
        end in
      Settles (setIsExporting false s1)
  end.

(** The [filename] option the component passes to the hook (line 99). *)
Definition export_filename (s : Designer) : string :=
  "t-shirt-design-" ++ view_name (cfg_view (config s)).

(** A call of [exportAsFile] from the current render. *)
Definition exportAsFile (format : ExportFormat) (s : Designer) : Designer :=
  suspend (Exporting format (export_filename s) Bare) (exportAsFile_begin s).

(** [handleExportFormat] (lines 163-171) up to its [await], with the
    [exportError] and the [filename] of the render that created it. *)
Definition handleExportFormat (closure_exportError : option string)
    (closure_filename : string) (format : ExportFormat) (s : Designer) : Designer :=
  suspend (Exporting format closure_filename (CloseModalUnless closure_exportError))
          (exportAsFile_begin s).

(** [!exportError]: [null] and the empty string are falsy. *)
Definition falsy (e : option string) : bool :=
  match e with
  | None => true
  | Some message => String.eqb message ""
  end.

(** What follows the [await] in the caller. *)
Definition continue (k : Continuation) (s : Designer) : Designer :=
  match k with
  | Bare => s
  | CloseModalUnless closure_exportError =>
      if falsy closure_exportError then setShowExportModal false s else s
  end.

(** [handleOpenExport] (lines 157-161). *)
Definition handleOpenExport (s : Designer) : Designer :=
  suspend ShowModalTimer (setSelectedId None s).

(** ** The rendered interface

    One event per handler attached in the JSX of [Designer] and
    [ExportModal].  A control that is not in the document, or that is there
    [disabled], delivers no event: the state is then left alone.  The
    controls of the editor panel and of the export modal deliver their events
    as long as they are in the document, with the handlers of the render they
    come from. *)

Definition SHIRT_COLORS : list (string * string) :=
  [ ("White", "#ffffff"); ("Black", "#1a1a1a"); ("Heather Gray", "#a0a0a0");
    ("Navy", "#1e293b"); ("Royal Blue", "#2563eb"); ("Red", "#dc2626");
    ("Forest Green", "#166534"); ("Yellow", "#facc15"); ("Orange", "#f97316");
    ("Pink", "#f472b6") ].

Definition FONTS : list string :=
  [ "Inter"; "Roboto"; "Oswald"; "Pacifico"; "Playfair Display";
    "Permanent Marker"; "Bebas Neue" ].

(** The value of an [<input type="range" min max>] whose thumb is asked to
    go to [position]: the browser keeps it between [min] and [max]. *)
Definition range_value (min max position : Z) : Z :=
  Z.max min (Z.min position max).

(** [selectedId && selectedElement] (line 302): the editor panel is rendered
    for a non-empty selected id that names a stored element. *)
Definition editor (s : Designer) : option (string * DesignElement) :=
  match selectedId s with
  | Some i =>
      if String.eqb i "" then None
      else match selectedElement s with
           | Some el => Some (i, el)
           | None => None
           end
  | None => None
  end.

(** The panel in the document, when it shows the fields that are rendered
    for text elements only (line 327): they follow the type of the
    [selectedElement] it was rendered with. *)
Definition text_panel (s : Designer) : option PanelRender :=
  match dom_panel s with
  | Some p =>
      match type (panel_selectedElement p) with
      | text => Some p
      | image => None
      end
  | None => None
  end.

Definition rotation_update (r : Z) : Updates :=
  mkUpdates None None None None None None None (Some r) None None None None.

Definition drag_update (dx dy : Z) : Updates :=
  mkUpdates None None None (Some dx) (Some dy) None None None None None None None.

(** [{ width: ref.style.width, height: ref.style.height, ...position }] *)
Definition resize_update (style_width style_height : string) (px py : Z) : Updates :=
  mkUpdates None None None (Some px) (Some py)
            (Some (DStr style_width)) (Some (DStr style_height))
            None None None None None.

Definition content_update (v : string) : Updates :=
  mkUpdates None None (Some v) None None None None None None None None None.

Definition fontFamily_update (v : string) : Updates :=
  mkUpdates None None None None None None None None None None (Some (Some v)) None.

Definition fontSize_update (n : Z) : Updates :=
  mkUpdates None None None None None None None None None (Some (Some n)) None None.

Definition color_update (v : string) : Updates :=
  mkUpdates None None None None None None None None (Some (Some v)) None None None.

(** [onResizeStop] of the [Rnd] rendered for [el] (lines 577-583). *)
Definition onResizeStop (el : DesignElement) (style_width style_height : string)
    (px py : Z) (s : Designer) : Designer :=
  updateElement (elements s) (id el)
                (resize_update style_width style_height px py) s.

(** [onDragStop] (line 576).  The [Rnd] elements are rendered anew with every
    state, so this handler and the one above are of the current render. *)
Definition onDragStop (el : DesignElement) (dx dy : Z) (s : Designer) : Designer :=
  updateElement (elements s) (id el) (drag_update dx dy) s.

(** [onChange] of the rotation slider (lines 416-427) of the panel [p]. *)
Definition onRotationChange (p : PanelRender) (position : Z) (s : Designer) : Designer :=
  updateElement (panel_elements p) (panel_selectedId p)
                (rotation_update (range_value 0 360 position)) s.

(** What completes a pending task. *)
Inductive Response :=
| TimerFired
| FileLoaded (result random_base36 : string)
| BrowserAnswers (b : Browser).

Inductive Event :=
| ClickColor (k : nat)
| ClickText (random_base36 : string)
| ChooseFile (files : list string)
| ClickDelete
| EditContent (value : string)
| EditFontFamily (k : nat)
| EditFontSize (parsed : Z)
| EditColor (value : string)
| MoveSlider (position : Z)
| ClickExportDesign
| ClickView (v : View)
| DragStop (k : nat) (dx dy : Z)
| ResizeStop (k : nat) (style_width style_height : string) (px py : Z)
| MouseDown (k : nat)
| CloseModal
| ClickFormat (format : ExportFormat)
| Completes (n : nat) (r : Response)
| PanelExited
| ModalExited.

Definition remove_nth {A} (n : nat) (l : list A) : list A :=
  firstn n l ++ skipn (S n) l.

(** The [n]-th pending task runs to its end with the response [r]; a task
    whose awaited promise stays pending is left where it is. *)
Definition complete (n : nat) (r : Response) (s : Designer) : Designer :=
  let rest := set_pending (remove_nth n (pending s)) s in
  match nth_error (pending s) n, r with
  | Some ShowModalTimer, TimerFired => setShowExportModal true rest
  | Some (FileReading els cfg), FileLoaded result random_base36 =>
      reader_onload els cfg result random_base36 rest
  | Some (Exporting format filename k), BrowserAnswers b =>
      match exportAsFile_resume filename format b rest with
      | Settles s' => continue k s'
      | StaysPending => s
      end
  | _, _ => s
  end.

(** What is in the document after a render of [s]: a panel or a modal whose
    condition holds is rendered with the values of [s]; one whose condition
    does not hold stays as it was, if it was there. *)
Definition render (s : Designer) : Designer :=
  set_dom
    match editor s with
    | Some (i, el) => Some (mkPanel (elements s) i el)
    | None => dom_panel s
    end
    (if showExportModal s
     then Some (mkModal (isExporting s) (exportError s) (export_filename s))
     else dom_modal s)
    s.

(** The handler an event runs. *)
Definition handle (s : Designer) (e : Event) : Designer :=
  match e with
  | ClickColor k =>
      match nth_error SHIRT_COLORS k with
      | Some (_, value) => setConfig (mkConfig value (cfg_view (config s))) s
      | None => s
      end
  | ClickText random_base36 => addText random_base36 s
  | ChooseFile files => handleImageUpload files s
  | ClickDelete =>
      match dom_panel s with
      | Some p => deleteElement (panel_elements p) (panel_selectedId p) s
      | None => s
      end
  | EditContent value =>
      match text_panel s with
      | Some p =>
          updateElement (panel_elements p) (panel_selectedId p) (content_update value) s
      | None => s
      end
  | EditFontFamily k =>
      match text_panel s, nth_error FONTS k with
      | Some p, Some f =>
          updateElement (panel_elements p) (panel_selectedId p) (fontFamily_update f) s
      | _, _ => s
      end
  | EditFontSize parsed =>
      match text_panel s with
      | Some p =>
          updateElement (panel_elements p) (panel_selectedId p) (fontSize_update parsed) s
      | None => s
      end
  | EditColor value =>
      match text_panel s with
      | Some p =>
          updateElement (panel_elements p) (panel_selectedId p) (color_update value) s
      | None => s
      end
  | MoveSlider position =>
      match dom_panel s with
      | Some p => onRotationChange p position s
      | None => s
      end
  | ClickExportDesign =>
      if isExporting s then s else handleOpenExport s
  | ClickView v =>
      setSelectedId None (setConfig (mkConfig (cfg_color (config s)) v) s)
  | DragStop k dx dy =>
      match nth_error (filteredElements s) k with
      | Some el => onDragStop el dx dy s
      | None => s
      end
  | ResizeStop k style_width style_height px py =>
      match nth_error (filteredElements s) k with
      | Some el => onResizeStop el style_width style_height px py s
      | None => s
      end
  | MouseDown k =>
      match nth_error (filteredElements s) k with
      | Some el => setSelectedId (Some (id el)) s
      | None => s
      end
  | CloseModal =>
      match dom_modal s with
      | Some _ => setShowExportModal false s
      | None => s
      end
  | ClickFormat format =>
      match dom_modal s with
      | Some m =>
          if modal_isExporting m then s
          else handleExportFormat (modal_exportError m) (modal_filename m) format s
      | None => s
      end
  | Completes n r => complete n r s
  | PanelExited =>
      match editor s with
      | Some _ => s
      | None => set_dom None (dom_modal s) s
      end
  | ModalExited =>
      if showExportModal s then s else set_dom (dom_panel s) None s
  end.

(** An event: its handler, then the render of the new state. *)
Definition step (s : Designer) (e : Event) : Designer :=
  render (handle s e).

Definition run (events : list Event) (s : Designer) : Designer :=
  fold_left step events s.

(** [ExportModal.tsx], lines 40 and 134-142: the message is displayed inside
    the modal, when the modal is open and the message is a non-empty
    string. *)
Definition error_displayed (s : Designer) : option string :=
  if showExportModal s then
    match exportError s with
    | Some message => if String.eqb message "" then None else Some message
    | None => None
    end
  else None.

(** * Vocabulary of the properties *)

Definition ids (els : list DesignElement) : list string := map id els.

(** The view filter in the words of its description: the elements anchored to
    [v], taken in order out of the collection. *)
Inductive view_subsequence (v : View) :
    list DesignElement -> list DesignElement -> Prop :=
| vs_done : view_subsequence v [] []
| vs_keep el els out :
    view el = v -> view_subsequence v els out ->
    view_subsequence v (el :: els) (el :: out)
| vs_skip el els out :
    view el <> v -> view_subsequence v els out ->
    view_subsequence v (el :: els) out.

Definition rotation_in_range (el : DesignElement) : Prop :=
  0 <= rotation el <= 360.

(** The rotations held by the closure of a pending task. *)
Definition task_rotations_in_range (t : Task) : Prop :=
  match t with
  | FileReading els _ => Forall rotation_in_range els
  | _ => True
  end.

Definition panel_rotations_in_range (p : option PanelRender) : Prop :=
  match p with
  | Some p => Forall rotation_in_range (panel_elements p)
  | None => True
  end.

Definition rotations_in_range (s : Designer) : Prop :=
  Forall rotation_in_range (elements s) /\
  Forall task_rotations_in_range (pending s) /\
  panel_rotations_in_range (dom_panel s).

Definition keeps_rotation_in_range (u : Updates) : Prop :=
  match u_rotation u with
  | Some r => 0 <= r <= 360
  | None => True
  end.

Definition is_number (d : Dim) : bool :=
  match d with
  | DNum _ => true
  | DStr _ => false
  end.

Definition is_auto (d : Dim) : bool :=
  match d with
  | DNum _ => false
  | DStr s => String.eqb s "auto"
  end.

Definition is_export (t : Task) : bool :=
  match t with
  | Exporting _ _ _ => true
  | _ => false
  end.

(** The export attempts that have begun and not finished. *)
Definition in_flight (s : Designer) : nat :=
  List.length (filter is_export (pending s)).

(** Three browsers.  In the first the capture and the encoding go through. *)
Definition rendering (rect_width rect_height : Q) (now : Z) : Browser :=
  {| ref_current := Some (rect_width, rect_height);
     toPng := fun _ _ => Some "data:image/png;base64,iVBORw0KGgo";
     fires_onload := fun _ => true;
     has_context := true;
     encoder_throws := fun _ _ => None;
     date_now := now |}.

(** In the second [domtoimage.toPng] rejects. *)
Definition rejecting (now : Z) : Browser :=
  {| ref_current := Some (600 # 1, 600 # 1)%Q;
     toPng := fun _ _ => None;
     fires_onload := fun _ => true;
     has_context := true;
     encoder_throws := fun _ _ => None;
     date_now := now |}.

(** The third renders a zero-sized container to a data URL that cannot be
    decoded: the image gets an [error] event and no [load] event. *)
Definition undecodable (now : Z) : Browser :=
  {| ref_current := Some (0 # 1, 0 # 1)%Q;
     toPng := fun _ _ => Some "data:,";
     fires_onload := fun _ => false;
     has_context := true;
     encoder_throws := fun _ _ => None;
     date_now := now |}.

(** * Theme provider ([src/context/ThemeContext.tsx]) *)

Inductive Theme := light | dark.

Definition theme_name (t : Theme) : string :=
  match t with
  | light => "light"
  | dark => "dark"
  end.

Definition isDark (t : Theme) : bool :=
  match t with
  | light => false
  | dark => true
  end.

(** [localStorage]: keys with their values. *)
Definition Storage := list (string * string).

Fixpoint getItem (key : string) (st : Storage) : option string :=
  match st with
  | [] => None
  | (k, v) :: st' => if String.eqb k key then Some v else getItem key st'
  end.

Fixpoint setItem (key value : string) (st : Storage) : Storage :=
  match st with
  | [] => [(key, value)]
  | (k, v) :: st' =>
      if String.eqb k key then (key, value) :: st'
      else (k, v) :: setItem key value st'
  end.

(** [classList.toggle(token, force)]: with [force] the token is added if it
    is not there, without it the token is removed. *)
Definition classList_toggle (token : string) (force : bool) (classes : list string) :
    list string :=
  if force then
    if existsb (String.eqb token) classes then classes else (classes ++ [token])%list
  else filter (fun c => negb (String.eqb c token)) classes.

Definition theme_key : string := "tshirt-designer-theme".

(** The initializer of the [theme] state (lines 18-25): [saved] is what
    [localStorage.getItem] returns, [prefers_dark] what the media query
    [(prefers-color-scheme: dark)] matches. *)
Definition initial_theme (has_window : bool) (saved : option string)
    (prefers_dark : bool) : Theme :=
  if has_window then
    match saved with
    | Some v =>
        if String.eqb v "dark" then dark
        else if String.eqb v "light" then light
        else if prefers_dark then dark else light
    | None => if prefers_dark then dark else light
    end
  else light.

(** The provider in a browser: its state, and the two things its effect
    writes to. *)
Record ThemePage := mkThemePage {
  theme : Theme;
  localStorage : Storage;
  classList : list string
}.

(** The effect of lines 29-32, run after a render in which [theme] is new. *)
Definition theme_effect (p : ThemePage) : ThemePage :=
  {| theme := theme p;
     localStorage := setItem theme_key (theme_name (theme p)) (localStorage p);
     classList := classList_toggle "dark" (isDark (theme p)) (classList p) |}.

(** The first render of [ThemeProvider], effect included. *)
Definition ThemeProvider (storage : Storage) (classes : list string)
    (prefers_dark : bool) : ThemePage :=
  theme_effect {| theme := initial_theme true (getItem theme_key storage) prefers_dark;
                  localStorage := storage;
                  classList := classes |}.

(** [toggleTheme] (lines 34-36) and the render that follows. *)
Definition toggleTheme (p : ThemePage) : ThemePage :=
  theme_effect {| theme := match theme p with light => dark | dark => light end;
                  localStorage := localStorage p;
                  classList := classList p |}.

(** * More vocabulary *)

Definition opposite (t : Theme) : Theme :=
  match t with
  | light => dark
  | dark => light
  end.

(** The events that can change the element collection. *)
Definition touches_elements (e : Event) : bool :=
  match e with
  | ClickText _ | ClickDelete | EditContent _ | EditFontFamily _
  | EditFontSize _ | EditColor _ | MoveSlider _ | DragStop _ _ _
  | ResizeStop _ _ _ _ _ | Completes _ (FileLoaded _ _) => true
  | _ => false
  end.


(** The events that begin or end an export attempt. *)
Definition is_export_event (e : Event) : bool :=
  match e with
  | ClickFormat _ | Completes _ (BrowserAnswers _) => true
  | _ => false
  end.

Definition is_format_click (e : Event) : bool :=
  match e with
  | ClickFormat _ => true
  | _ => false
  end.


(** Reading a timestamp back from a file name. *)
Definition parse_timestamp (s : string) : option Z :=
  option_map Z.of_int (NilZero.int_of_string s).

Definition extension (format : ExportFormat) : string :=
  match format with
  | png => ".png"
  | jpg => ".jpg"
  | pdf => ".pdf"
  end.

(** [u1] and then [u2]: in [{ ...{ ...el, ...u1 }, ...u2 }] a property of
    [u2] wins over the same property of [u1]. *)
Definition and_then {A} (first second : option A) : option A :=
  match second with
  | Some a => Some a
  | None => first
  end.

Definition updates_then (u1 u2 : Updates) : Updates :=
  {| u_id := and_then (u_id u1) (u_id u2);
     u_type := and_then (u_type u1) (u_type u2);
     u_content := and_then (u_content u1) (u_content u2);
     u_x := and_then (u_x u1) (u_x u2);
     u_y := and_then (u_y u1) (u_y u2);
     u_width := and_then (u_width u1) (u_width u2);
     u_height := and_then (u_height u1) (u_height u2);
     u_rotation := and_then (u_rotation u1) (u_rotation u2);
     u_color := and_then (u_color u1) (u_color u2);
     u_fontSize := and_then (u_fontSize u1) (u_fontSize u2);
     u_fontFamily := and_then (u_fontFamily u1) (u_fontFamily u2);
     u_view := and_then (u_view u1) (u_view u2) |}.

(** The elements of a collection with another id than [i], taken in order
    and as they are. *)
Inductive without_id (i : string) :
    list DesignElement -> list DesignElement -> Prop :=
| wi_done : without_id i [] []
| wi_drop el els out :
    id el = i -> without_id i els out -> without_id i (el :: els) out
| wi_keep el els out :
    id el <> i -> without_id i els out ->
    without_id i (el :: els) (el :: out).


(** An element after a committed resize. *)
Definition resized (el : DesignElement) (style_width style_height : string)
    (px py : Z) : DesignElement :=
  {| id := id el;
     type := type el;
     content := content el;
     x := px;
     y := py;
     width := DStr style_width;
     height := DStr style_height;
     rotation := rotation el;
     color := color el;
     fontSize := fontSize el;
     fontFamily := fontFamily el;
     view := view el |}.

(** While an attempt is running no message is retained. *)
Definition busy_without_error (s : Designer) : Prop :=
  isExporting s = true -> exportError s = None.

(** The two placement gestures. *)
Definition is_gesture (e : Event) : bool :=
  match e with
  | DragStop _ _ _ | ResizeStop _ _ _ _ _ => true
  | _ => false
  end.

(** * Properties *)

(** ** Rendering *)

Lemma render_frame (s : Designer) :
  config (render s) = config s /\ elements (render s) = elements s /\
  selectedId (render s) = selectedId s /\
  showExportModal (render s) = showExportModal s /\
  isExporting (render s) = isExporting s /\
  exportError (render s) = exportError s /\
  downloads (render s) = downloads s /\ pending (render s) = pending s.
Proof. repeat split. Qed.

Lemma editor_render (s : Designer) : editor (render s) = editor s.
Proof. reflexivity. Qed.



(** ** Element store *)

Lemma map_unknown_id (i : string) (f : DesignElement -> DesignElement)
    (els : list DesignElement) :
  ~ In i (ids els) ->
  map (fun el => if String.eqb (id el) i then f el else el) els = els.
Proof.
  induction els as [|el els IH]; simpl; intros Hnot.
  - reflexivity.
  - destruct (String.eqb_spec (id el) i) as [Heq|Hne].
    + exfalso. apply Hnot. now left.
    + f_equal. apply IH. intros Hin. apply Hnot. now right.
Qed.

Lemma filter_unknown_id (i : string) (els : list DesignElement) :
  ~ In i (ids els) ->
  filter (fun el => negb (String.eqb (id el) i)) els = els.
Proof.
  induction els as [|el els IH]; simpl; intros Hnot.
  - reflexivity.
  - destruct (String.eqb_spec (id el) i) as [Heq|Hne]; simpl.
    + exfalso. apply Hnot. now left.
    + f_equal. apply IH. intros Hin. apply Hnot. now right.
Qed.

(** With an id that the elements of its render do not carry, either
    operation sets the store to those elements: nothing changes when the
    handler is of the current render, and the store goes back to the
    elements of that render when it is not. *)
Lemma unknown_id_gives_closure (closure_elements : list DesignElement) (i : string)
    (updates : Updates) (s : Designer) :
  ~ In i (ids closure_elements) ->
  elements (updateElement closure_elements i updates s) = closure_elements /\
  elements (deleteElement closure_elements i s) = closure_elements.
Proof.
  intros Hnot. split; simpl.
  - now apply (map_unknown_id i (fun el => spread el updates)).
  - now apply filter_unknown_id.
Qed.

(** C6: the editor panel stays in the document while it closes, with the
    handlers of its last render.  After the only element is deleted, the
    slider of the closing panel calls [updateElement] with the id of the
    deleted element, which the store no longer holds; the call maps over the
    elements of that last render and the deleted element is back, rotated. *)
Theorem closing_panel_updates_unknown_id :
  let deleted := run [ClickText "0.4fzyo82mvyr"; ClickDelete] initial in
  let after := step deleted (MoveSlider 90) in
  elements deleted = [] /\
  ~ In "4fzyo82mv" (ids (elements deleted)) /\
  option_map panel_selectedId (dom_panel deleted) = Some "4fzyo82mv" /\
  ids (elements after) = ["4fzyo82mv"] /\
  map rotation (elements after) = [90] /\
  elements after <> elements deleted.
Proof.
  repeat split.
  - intros [].
  - discriminate.
Qed.

(** C9: [deleteElement] always leaves the selection empty, whatever id it is
    given: the selected one, another one, or one that is not in the store.
    The elements it keeps are those of its render with another id, so an
    element that was selected under another id is still stored, and no longer
    selected. *)
Theorem deleteElement_clears_selection (closure_elements : list DesignElement)
    (i : string) (s : Designer) :
  selectedId (deleteElement closure_elements i s) = None /\
  (forall el, In el (elements (deleteElement closure_elements i s)) <->
              In el closure_elements /\ id el <> i).
Proof.
  split; [reflexivity|].
  intros el. simpl. rewrite filter_In.
  destruct (String.eqb_spec (id el) i); simpl; intuition congruence.
Qed.

(** ** View filter *)

Lemma view_eqb_spec (a b : View) : reflect (a = b) (view_eqb a b).
Proof. destruct a, b; constructor; congruence. Qed.

Lemma filteredElements_is_view_subsequence (s : Designer) :
  view_subsequence (cfg_view (config s)) (elements s) (filteredElements s).
Proof.
  unfold filteredElements.
  induction (elements s) as [|el els IH]; simpl.
  - constructor.
  - destruct (view_eqb_spec (view el) (cfg_view (config s))).
    + now apply vs_keep.
    + now apply vs_skip.
Qed.

Lemma view_subsequence_unique (v : View) (els out : list DesignElement) :
  view_subsequence v els out ->
  out = filter (fun el => view_eqb (view el) v) els.
Proof.
  induction 1 as [|el els out Hv _ IH|el els out Hv _ IH]; simpl.
  - reflexivity.
  - destruct (view_eqb_spec (view el) v); [now f_equal | contradiction].
  - destruct (view_eqb_spec (view el) v); [contradiction | assumption].
Qed.

(** C7: the rendered elements are exactly the ordered subsequence of the
    collection anchored to the active view; and after a text is added on the
    front and an image on the back, the front shows exactly the text and the
    back exactly the image. *)
Theorem filteredElements_exact (s : Designer) :
  (forall out,
      view_subsequence (cfg_view (config s)) (elements s) out <->
      out = filteredElements s) /\
  (forall r1 r2 result file files,
      let on_back :=
        run [ClickText r1; ClickView back; ChooseFile (file :: files);
             Completes 0 (FileLoaded result r2)] initial in
      let on_front := step on_back (ClickView front) in
      filteredElements on_front = [newText r1 (mkConfig "#ffffff" front)] /\
      filteredElements on_back = [newImage r2 result (mkConfig "#ffffff" back)]).
Proof.
  split.
  - intros out. split.
    + apply view_subsequence_unique.
    + intros ->. apply filteredElements_is_view_subsequence.
  - intros. split; reflexivity.
Qed.

(** ** Identifiers *)

Lemma NoDup_snoc {A} (l : list A) (a : A) :
  NoDup l -> ~ In a l -> NoDup (l ++ [a]).
Proof.
  induction 1 as [|b l Hb Hl IH]; simpl; intros Ha.
  - constructor; [intros [] | constructor].
  - constructor.
    + rewrite in_app_iff. intros [Hin|[Heq|[]]].
      * contradiction.
      * apply Ha. now left.
    + apply IH. intros Hin. apply Ha. now right.
Qed.

Lemma ids_snoc (els : list DesignElement) (el : DesignElement) :
  ids (els ++ [el]) = (ids els ++ [id el])%list.
Proof. unfold ids. now rewrite map_app. Qed.

(** C8, as claimed, fails: two different draws of [Math.random()] that agree
    on their first nine base-36 digits give two stored elements one id. *)
Lemma two_draws_one_id :
  "0.4fzyo82mvyr" <> "0.4fzyo82mvzz" /\
  ~ NoDup (ids (elements (addText "0.4fzyo82mvzz" (addText "0.4fzyo82mvyr" initial)))).
Proof.
  split; [discriminate|].
  intros H. inversion H as [|a l Hnotin _]; subst.
  apply Hnotin. left. reflexivity.
Qed.

(** C8, amended: an add gives the new element the id cut out of the random
    draw and checks nothing; the ids of the collection it builds are pairwise
    distinct whenever that id differs from the ids already there. *)
Theorem fresh_draw_keeps_ids_distinct (random_base36 result : string) (s : Designer) :
  NoDup (ids (elements s)) ->
  ~ In (random_id random_base36) (ids (elements s)) ->
  NoDup (ids (elements (addText random_base36 s))) /\
  NoDup (ids (elements
                (reader_onload (elements s) (config s) result random_base36 s))).
Proof.
  intros Hnd Hfresh. split; simpl; rewrite ids_snoc; now apply NoDup_snoc.
Qed.

Lemma fresh_draw_keeps_ids_distinct_witness :
  let s := addText "0.4fzyo82mvyr" initial in
  NoDup (ids (elements (addText "0.9q1w2e3r4t5y" s))) /\
  NoDup (ids (elements
                (reader_onload (elements s) (config s) "data:image/png;base64,iVBOR"
                               "0.9q1w2e3r4t5y" s))).
Proof.
  apply (fresh_draw_keeps_ids_distinct "0.9q1w2e3r4t5y" "data:image/png;base64,iVBOR"
           (addText "0.4fzyo82mvyr" initial)).
  - simpl. constructor; [intros [] | constructor].
  - simpl. intros [H|[]]. discriminate H.
Defined.

(** ** Rotation *)

(** C2, as claimed, fails: [updateElement] stores the rotation it is given. *)
Lemma updateElement_stores_any_rotation :
  let s := addText "0.4fzyo82mvyr" initial in
  map rotation
      (elements (updateElement (elements s) "4fzyo82mv" (rotation_update 720) s)) = [720] /\
  map rotation
      (elements (updateElement (elements s) "4fzyo82mv" (rotation_update (-45)) s)) = [-45] /\
  ~ Forall rotation_in_range
      (elements (updateElement (elements s) "4fzyo82mv" (rotation_update 720) s)).
Proof.
  repeat split.
  intros H. inversion H as [|el l Hel _]; subst.
  unfold rotation_in_range in Hel. simpl in Hel. lia.
Qed.

Lemma range_value_bounds (min max position : Z) :
  min <= max -> min <= range_value min max position <= max.
Proof. unfold range_value. lia. Qed.

Lemma spread_rotation_in_range (el : DesignElement) (u : Updates) :
  keeps_rotation_in_range u -> rotation_in_range el ->
  rotation_in_range (spread el u).
Proof.
  unfold keeps_rotation_in_range, rotation_in_range, spread. simpl.
  destruct (u_rotation u); simpl; auto.
Qed.

Lemma updateElement_rotations (closure_elements : list DesignElement) (i : string)
    (u : Updates) (s : Designer) :
  keeps_rotation_in_range u -> Forall rotation_in_range closure_elements ->
  rotations_in_range s ->
  rotations_in_range (updateElement closure_elements i u s).
Proof.
  intros Hu Hc (Hels & Hpend & Hpanel). split; [|split; assumption].
  simpl. rewrite Forall_forall in *. intros el' Hin.
  apply in_map_iff in Hin. destruct Hin as [el [<- Hin]].
  destruct (String.eqb (id el) i); auto using spread_rotation_in_range.
Qed.

Lemma deleteElement_rotations (closure_elements : list DesignElement) (i : string)
    (s : Designer) :
  Forall rotation_in_range closure_elements ->
  rotations_in_range s -> rotations_in_range (deleteElement closure_elements i s).
Proof.
  intros Hc (Hels & Hpend & Hpanel). split; [|split; assumption].
  simpl. rewrite Forall_forall in *. intros el Hin.
  apply filter_In in Hin. now apply Hc.
Qed.

Lemma Forall_snoc {A} (P : A -> Prop) (l : list A) (a : A) :
  Forall P l -> P a -> Forall P (l ++ [a]).
Proof. intros Hl Ha. apply Forall_app. split; [assumption | now constructor]. Qed.

Lemma Forall_remove_nth {A} (P : A -> Prop) (n : nat) (l : list A) :
  Forall P l -> Forall P (remove_nth n l).
Proof.
  intros Hl. revert n. unfold remove_nth.
  induction Hl as [|a l Ha Hl IH]; intros [|n]; simpl.
  - constructor.
  - constructor.
  - assumption.
  - constructor; [assumption | apply IH].
Qed.

Lemma Forall_nth_error {A} (P : A -> Prop) (n : nat) (l : list A) (a : A) :
  Forall P l -> nth_error l n = Some a -> P a.
Proof.
  intros Hl Hn. rewrite Forall_forall in Hl. apply Hl.
  eapply nth_error_In; eassumption.
Qed.

(** What an export attempt that settles leaves alone. *)
Lemma exportAsFile_resume_frame (filename : string) (format : ExportFormat)
    (b : Browser) (s s' : Designer) :
  exportAsFile_resume filename format b s = Settles s' ->
  config s' = config s /\ elements s' = elements s /\
  selectedId s' = selectedId s /\ showExportModal s' = showExportModal s /\
  pending s' = pending s /\ isExporting s' = false.
Proof.
  unfold exportAsFile_resume.
  destruct (captureCanvas b) as [canvas|]; [|discriminate].
  intros [= <-].
  destruct (export_try filename format b canvas); simpl; repeat split.
Qed.

Lemma exportAsFile_resume_dom (filename : string) (format : ExportFormat)
    (b : Browser) (s s' : Designer) :
  exportAsFile_resume filename format b s = Settles s' ->
  dom_panel s' = dom_panel s /\ dom_modal s' = dom_modal s.
Proof.
  unfold exportAsFile_resume.
  destruct (captureCanvas b) as [canvas|]; [|discriminate].
  intros [= <-].
  destruct (export_try filename format b canvas); simpl; repeat split.
Qed.

Lemma continue_frame (k : Continuation) (s : Designer) :
  config (continue k s) = config s /\ elements (continue k s) = elements s /\
  selectedId (continue k s) = selectedId s /\ pending (continue k s) = pending s /\
  isExporting (continue k s) = isExporting s /\
  exportError (continue k s) = exportError s /\
  downloads (continue k s) = downloads s.
Proof.
  destruct k as [|e]; simpl; [repeat split|].
  destruct (falsy e); repeat split.
Qed.

Lemma continue_dom (k : Continuation) (s : Designer) :
  dom_panel (continue k s) = dom_panel s /\ dom_modal (continue k s) = dom_modal s.
Proof.
  destruct k as [|e]; simpl; [repeat split|].
  destruct (falsy e); repeat split.
Qed.

Lemma complete_rotations (n : nat) (r : Response) (s : Designer) :
  rotations_in_range s -> rotations_in_range (complete n r s).
Proof.
  intros (Hels & Hpend & Hpanel). unfold complete.
  destruct (nth_error (pending s) n) as [t|] eqn:Hn; [|now repeat split].
  pose proof (Forall_remove_nth _ n _ Hpend) as Hrest.
  destruct t as [|els cfg|format filename k], r as [|result random|b];
    try (now repeat split).
  - (* the file has been read *)
    split; [|split; [exact Hrest | exact Hpanel]]. simpl.
    apply Forall_snoc.
    + exact (Forall_nth_error _ _ _ _ Hpend Hn).
    + unfold rotation_in_range. simpl. lia.
  - (* the browser has answered an export *)
    destruct (exportAsFile_resume _ _ _ _) as [s'|] eqn:Hres; [|now repeat split].
    pose proof (exportAsFile_resume_dom _ _ _ _ _ Hres) as [Hdp _].
    apply exportAsFile_resume_frame in Hres.
    destruct Hres as (_ & Hel & _ & _ & Hpe & _).
    destruct (continue_frame k s') as (_ & Hel' & _ & Hpe' & _).
    destruct (continue_dom k s') as [Hdp' _].
    split; [|split].
    + rewrite Hel', Hel. exact Hels.
    + rewrite Hpe', Hpe. exact Hrest.
    + rewrite Hdp', Hdp. exact Hpanel.
Qed.

Lemma render_rotations (s : Designer) :
  rotations_in_range s -> rotations_in_range (render s).
Proof.
  intros (Hels & Hpend & Hpanel). split; [exact Hels|]. split; [exact Hpend|].
  unfold render. simpl. now destruct (editor s) as [[i el]|].
Qed.

Lemma handle_rotations (s : Designer) (e : Event) :
  rotations_in_range s -> rotations_in_range (handle s e).
Proof.
  intros Hs. pose proof Hs as (Hels & Hpend & Hpanel).
  assert (Htext : forall p, text_panel s = Some p ->
                            Forall rotation_in_range (panel_elements p)).
  { unfold text_panel. intros p. destruct (dom_panel s) as [q|]; [|discriminate].
    destruct (type (panel_selectedElement q)); [|discriminate].
    now intros [= <-]. }
  destruct e; simpl.
  - destruct (nth_error SHIRT_COLORS k) as [[name value]|]; [now repeat split | assumption].
  - split; [|split; assumption]. simpl. apply Forall_snoc; [exact Hels|].
    unfold rotation_in_range. simpl. lia.
  - unfold handleImageUpload. destruct (hd_error files); [|assumption].
    split; [exact Hels|]. split; [|exact Hpanel]. simpl. now apply Forall_snoc.
  - destruct (dom_panel s) as [p|]; [|assumption].
    now apply deleteElement_rotations.
  - destruct (text_panel s) as [p|] eqn:Hp; [|assumption].
    apply updateElement_rotations; [exact I | now apply Htext | assumption].
  - destruct (text_panel s) as [p|] eqn:Hp, (nth_error FONTS k); try assumption.
    apply updateElement_rotations; [exact I | now apply Htext | assumption].
  - destruct (text_panel s) as [p|] eqn:Hp; [|assumption].
    apply updateElement_rotations; [exact I | now apply Htext | assumption].
  - destruct (text_panel s) as [p|] eqn:Hp; [|assumption].
    apply updateElement_rotations; [exact I | now apply Htext | assumption].
  - destruct (dom_panel s) as [p|]; [|assumption].
    apply updateElement_rotations; [|assumption|assumption].
    unfold keeps_rotation_in_range. simpl. apply range_value_bounds. lia.
  - destruct (isExporting s); [assumption|].
    split; [exact Hels|]. split; [|exact Hpanel]. simpl. now apply Forall_snoc.
  - now repeat split.
  - destruct (nth_error (filteredElements s) k); [|assumption].
    apply updateElement_rotations; [exact I | assumption | assumption].
  - destruct (nth_error (filteredElements s) k); [|assumption].
    apply updateElement_rotations; [exact I | assumption | assumption].
  - destruct (nth_error (filteredElements s) k); [now repeat split | assumption].
  - destruct (dom_modal s); [now repeat split | assumption].
  - destruct (dom_modal s) as [m|]; [|assumption].
    destruct (modal_isExporting m); [assumption|].
    split; [exact Hels|]. split; [|exact Hpanel]. simpl. now apply Forall_snoc.
  - now apply complete_rotations.
  - destruct (editor s); [assumption|]. split; [exact Hels|]. split; [exact Hpend|].
    exact I.
  - destruct (showExportModal s); [assumption | now repeat split].
Qed.

Lemma step_rotations (s : Designer) (e : Event) :
  rotations_in_range s -> rotations_in_range (step s e).
Proof.
  intros Hs. apply render_rotations. now apply handle_rotations.
Qed.

(** C2, amended: the bound on rotation is kept by the slider, not by the
    store.  Whatever the user does with the rendered controls, in whatever
    order and with the slider's thumb asked to go anywhere, every stored
    rotation lies in [[0, 360]]. *)
Theorem interface_keeps_rotation_in_range (events : list Event) :
  Forall rotation_in_range (elements (run events initial)).
Proof.
  enough (H : forall s, rotations_in_range s -> rotations_in_range (run events s)).
  { apply H. repeat split; constructor. }
  unfold run. induction events as [|e events IH]; simpl; intros s Hs.
  - exact Hs.
  - apply IH. now apply step_rotations.
Qed.

(** ** Export workflow *)

(** [exportAsFile] does not look at the busy flag: called again while an
    attempt is in flight it starts a second attempt, and both trigger a
    download. *)
Lemma second_exportAsFile_call_runs :
  let s1 := exportAsFile png initial in
  let s2 := exportAsFile png s1 in
  let s3 := run [Completes 0 (BrowserAnswers (rendering 600 600 1767225600000));
                 Completes 0 (BrowserAnswers (rendering 600 600 1767225600250))] s2 in
  isExporting s1 = true /\ s2 <> s1 /\ in_flight s2 = 2%nat /\
  map d_name (downloads s3) =
    ["t-shirt-design-front-1767225600000.png";
     "t-shirt-design-front-1767225600250.png"].
Proof.
  repeat split. discriminate.
Qed.

Lemma in_flight_suspend (t : Task) (s : Designer) :
  in_flight (suspend t s) = (in_flight s + if is_export t then 1 else 0)%nat.
Proof.
  unfold in_flight. simpl. rewrite filter_app, length_app. simpl.
  now destruct (is_export t).
Qed.

Lemma filter_remove_nth {A} (p : A -> bool) (n : nat) (l : list A) (a : A) :
  nth_error l n = Some a ->
  List.length (filter p l) =
  (List.length (filter p (remove_nth n l)) + if p a then 1 else 0)%nat.
Proof.
  revert n.
  induction l as [|b l IH]; intros [|n]; try discriminate.
  - intros [= ->]. change (remove_nth 0 (a :: l)) with l. simpl.
    destruct (p a); simpl; lia.
  - intros Hn. specialize (IH n Hn).
    change (remove_nth (S n) (b :: l)) with (b :: remove_nth n l).
    simpl in *. destruct (p b); simpl; lia.
Qed.

(** C1: the export modal stays in the document while it closes, with the
    format buttons of its last render, which were enabled.  Two clicks on
    one of them after the modal has been closed start two attempts: the
    second click comes while the busy flag is up and an attempt is in flight,
    is not ignored, and both attempts trigger a download. *)
Theorem closing_modal_starts_second_export :
  let closed := run [ClickExportDesign; Completes 0 TimerFired; CloseModal] initial in
  let first := step closed (ClickFormat png) in
  let second := step first (ClickFormat png) in
  let finished :=
    run [Completes 0 (BrowserAnswers (rendering 600 600 1767225600000));
         Completes 0 (BrowserAnswers (rendering 600 600 1767225600250))] second in
  (showExportModal closed = false /\
   option_map modal_isExporting (dom_modal closed) = Some false) /\
  (isExporting first = true /\ in_flight first = 1%nat) /\
  (second <> first /\ in_flight second = 2%nat) /\
  map d_name (downloads finished) =
    ["t-shirt-design-front-1767225600000.png";
     "t-shirt-design-front-1767225600250.png"].
Proof.
  repeat split. discriminate.
Qed.

(** X19: an attempt whose capture settles ends idle with exactly one of the two
    outcomes: one more download and the error left as it was, or no download
    and the message of what was thrown. *)
Lemma settled_export_has_one_outcome (filename : string) (format : ExportFormat)
    (b : Browser) (canvas : option Canvas) (s : Designer) :
  captureCanvas b = Settles canvas ->
  exists s',
    exportAsFile_resume filename format b s = Settles s' /\
    isExporting s' = false /\
    ((exists d, export_try filename format b canvas = inr d /\
                downloads s' = (downloads s ++ [d])%list /\
                exportError s' = exportError s) \/
     (exists err, export_try filename format b canvas = inl err /\
                  downloads s' = downloads s /\
                  exportError s' = Some (catch_message err))).
Proof.
  intros Hcap. unfold exportAsFile_resume. rewrite Hcap.
  eexists. split; [reflexivity|].
  destruct (export_try filename format b canvas) as [err|d]; simpl.
  - split; [reflexivity|]. right. now exists err.
  - split; [reflexivity|]. left. now exists d.
Qed.

(** Without a canvas the message is the fixed, non-empty one. *)
Lemma capture_failure_message (filename : string) (format : ExportFormat) (b : Browser) :
  export_try filename format b None =
    inl (ErrorObject "Failed to capture the design canvas.").
Proof. reflexivity. Qed.

(** C4: after a failed attempt the next attempt runs [handleExportFormat]
    with the [exportError] of the render that created it.  The first failure
    closes the modal, the only place where the message is displayed; the
    success that follows clears the message, triggers its download and
    leaves the modal open. *)
Theorem modal_follows_stale_exportError :
  let open_modal := [ClickExportDesign; Completes 0 TimerFired] in
  let attempt b := [ClickFormat png; Completes 0 (BrowserAnswers b)] in
  let failed :=
    run (open_modal ++ attempt (rejecting 1767225600000)) initial in
  let reopened := run open_modal failed in
  let succeeded := run (attempt (rendering 600 600 1767225660000)) reopened in
  (exportError failed = Some "Failed to capture the design canvas." /\
   downloads failed = [] /\ isExporting failed = false /\
   showExportModal failed = false /\ error_displayed failed = None) /\
  error_displayed reopened = Some "Failed to capture the design canvas." /\
  (exportError succeeded = None /\
   map d_name (downloads succeeded) = ["t-shirt-design-front-1767225660000.png"] /\
   isExporting succeeded = false /\
   showExportModal succeeded = true).
Proof. repeat split. Qed.

(** C5: when the rendered data URL cannot be decoded the [load] event never
    comes, the promise awaited in [captureCanvas] never settles, and the
    attempt stays busy for ever with no download and no message. *)
Theorem export_stays_busy_without_load_event :
  let busy :=
    run [ClickExportDesign; Completes 0 TimerFired; ClickFormat png] initial in
  let b := undecodable 1767225600000 in
  captureCanvas b = StaysPending /\
  exportAsFile_resume "t-shirt-design-front" png b busy = StaysPending /\
  step busy (Completes 0 (BrowserAnswers b)) = busy /\
  isExporting busy = true /\ exportError busy = None /\ downloads busy = [] /\
  in_flight busy = 1%nat.
Proof. repeat split. Qed.

(** ** Resizing *)

(** C3, as claimed, fails: a resize of a new text element that the widget
    reports as ["180px"] wide and still ["auto"] high stores these two
    strings; the width is no number and the height is still auto. *)
Lemma resize_stores_reported_strings :
  let s := addText "0.4fzyo82mvyr" initial in
  let s' := step s (ResizeStop 0 "180px" "auto" 100 100) in
  map width (elements s') = [DStr "180px"] /\
  map height (elements s') = [DStr "auto"] /\
  forallb is_number (map width (elements s')) = false /\
  forallb is_auto (map height (elements s')) = true.
Proof. repeat split. Qed.

Lemma resized_is_spread (el : DesignElement) (style_width style_height : string)
    (px py : Z) :
  spread el (resize_update style_width style_height px py) =
  resized el style_width style_height px py.
Proof. reflexivity. Qed.

(** C3, amended: a committed resize stores, as strings, the width and height
    the widget reports in [ref.style] and the reported position: the store
    keeps its length, at every position the element is the resized one when
    it carries the id and the same as before when it does not, and every
    stored element with the id has the reported strings as its dimensions; a
    dimension ends auto exactly when the reported string is ["auto"]. *)
Theorem onResizeStop_stores_reported_style (el : DesignElement)
    (style_width style_height : string) (px py : Z) (s : Designer)
    (j : nat) (e : DesignElement) :
  nth_error (elements s) j = Some e ->
  let s' := onResizeStop el style_width style_height px py s in
  List.length (elements s') = List.length (elements s) /\
  nth_error (elements s') j =
    Some (if String.eqb (id e) (id el)
          then resized e style_width style_height px py
          else e) /\
  (forall e', In e' (elements s') -> id e' = id el ->
     width e' = DStr style_width /\ height e' = DStr style_height /\
     x e' = px /\ y e' = py /\
     is_auto (width e') = String.eqb style_width "auto" /\
     is_auto (height e') = String.eqb style_height "auto").
Proof.
  intros Hj. simpl. split; [apply length_map|]. split.
  - rewrite nth_error_map, Hj. simpl.
    destruct (String.eqb (id e) (id el)); [now rewrite resized_is_spread | reflexivity].
  - intros e' Hin Hid. apply in_map_iff in Hin. destruct Hin as [e0 [He0 _]].
    destruct (String.eqb_spec (id e0) (id el)) as [Heq|Hne].
    + subst e'. repeat split.
    + subst e'. contradiction.
Qed.

Lemma onResizeStop_stores_reported_style_witness :
  let s := run [ClickText "0.4fzyo82mvyr"; ClickText "0.9q1w2e3r4t5y"] initial in
  let el := newText "0.4fzyo82mvyr" (config initial) in
  let s' := onResizeStop el "180px" "52px" 96 100 s in
  nth_error (elements s') 0 = Some (resized el "180px" "52px" 96 100) /\
  nth_error (elements s') 1 = Some (newText "0.9q1w2e3r4t5y" (config initial)) /\
  map (fun e => is_auto (width e)) (elements s') = [false; true].
Proof.
  split; [|split; [|reflexivity]].
  - exact (proj1 (proj2 (onResizeStop_stores_reported_style
             (newText "0.4fzyo82mvyr" (config initial)) "180px" "52px" 96 100
             (run [ClickText "0.4fzyo82mvyr"; ClickText "0.9q1w2e3r4t5y"] initial)
             0 (newText "0.4fzyo82mvyr" (config initial)) eq_refl))).
  - exact (proj1 (proj2 (onResizeStop_stores_reported_style
             (newText "0.4fzyo82mvyr" (config initial)) "180px" "52px" 96 100
             (run [ClickText "0.4fzyo82mvyr"; ClickText "0.9q1w2e3r4t5y"] initial)
             1 (newText "0.9q1w2e3r4t5y" (config initial)) eq_refl))).
Defined.

(** ** Adding elements *)

(** What [addText] does. *)
Lemma addText_appends_and_selects (random_base36 : string) (s : Designer) :
  let el := newText random_base36 (config s) in
  elements (addText random_base36 s) = (elements s ++ [el])%list /\
  selectedId (addText random_base36 s) = Some (id el) /\
  content el = "YOUR TEXT" /\ (x el, y el) = (100, 100) /\
  (width el, height el) = (DStr "auto", DStr "auto") /\
  rotation el = 0 /\ fontSize el = Some 24 /\ fontFamily el = Some "Inter" /\
  (color el = Some "#ffffff" <-> cfg_color (config s) = "#1a1a1a") /\
  (color el = Some "#000000" <-> cfg_color (config s) <> "#1a1a1a") /\
  view el = cfg_view (config s).
Proof.
  repeat split; simpl;
    destruct (String.eqb_spec (cfg_color (config s)) "#1a1a1a");
    try congruence; try discriminate; auto.
Qed.

(** What the [onload] callback of [handleImageUpload] does: it appends to the
    elements of its closure and anchors to the view of its closure. *)
Lemma reader_onload_appends_to_closure (els : list DesignElement) (cfg : ShirtConfig)
    (result random_base36 : string) (s : Designer) :
  let el := newImage random_base36 result cfg in
  let s' := reader_onload els cfg result random_base36 s in
  elements s' = (els ++ [el])%list /\
  selectedId s' = Some (id el) /\
  (width el, height el) = (DNum 150, DNum 150) /\
  rotation el = 0 /\ view el = cfg_view cfg.
Proof. repeat split. Qed.

(** C10: the [onload] callback of [handleImageUpload] works on the [elements]
    and the [config] of the render in which the file was chosen.  A text
    added while the file is being read is dropped when the image arrives,
    and an image whose file was chosen on the front is anchored to the front
    although the back is active when it is created. *)
Theorem image_load_uses_stale_closure :
  let loaded := Completes 0 (FileLoaded "data:image/png;base64,iVBORw0KGgo"
                                        "0.9q1w2e3r4t5y") in
  let img := newImage "0.9q1w2e3r4t5y" "data:image/png;base64,iVBORw0KGgo"
                      (mkConfig "#ffffff" front) in
  let before := run [ChooseFile ["logo.png"]; ClickText "0.4fzyo82mvyr"] initial in
  let switched := run [ChooseFile ["logo.png"]; ClickView back] initial in
  (elements before = [newText "0.4fzyo82mvyr" (mkConfig "#ffffff" front)] /\
   elements (step before loaded) = [img]) /\
  (cfg_view (config (step switched loaded)) = back /\
   elements (step switched loaded) = [img] /\
   view img = front /\
   filteredElements (step switched loaded) = []).
Proof. repeat split. Qed.

(** * Further properties of the code *)

(** ** Store operations *)

Lemma override_and_then {A} (old : A) (first second : option A) :
  override (override old first) second = override old (and_then first second).
Proof. now destruct second. Qed.

Lemma spread_spread (el : DesignElement) (u1 u2 : Updates) :
  spread (spread el u1) u2 = spread el (updates_then u1 u2).
Proof.
  unfold spread, updates_then. simpl.
  now rewrite !override_and_then.
Qed.

Lemma ids_updateElement (closure_elements : list DesignElement) (i : string)
    (u : Updates) (s : Designer) :
  u_id u = None ->
  ids (elements (updateElement closure_elements i u s)) = ids closure_elements.
Proof.
  intros Hu. simpl. unfold ids. rewrite map_map. apply map_ext.
  intros el. destruct (String.eqb (id el) i); [|reflexivity].
  simpl. now rewrite Hu.
Qed.

Lemma filter_filter_comm {A} (p q : A -> bool) (l : list A) :
  filter p (filter q l) = filter q (filter p l).
Proof.
  induction l as [|a l IH]; simpl; [reflexivity|].
  destruct (q a) eqn:Hq, (p a) eqn:Hp; simpl; rewrite ?Hq, ?Hp, IH; reflexivity.
Qed.

Lemma filter_idem {A} (p : A -> bool) (l : list A) :
  filter p (filter p l) = filter p l.
Proof.
  induction l as [|a l IH]; simpl; [reflexivity|].
  destruct (p a) eqn:Hp; simpl; rewrite ?Hp, IH; reflexivity.
Qed.

Lemma filter_without_id (i : string) (els : list DesignElement) :
  without_id i els (filter (fun el => negb (String.eqb (id el) i)) els).
Proof.
  induction els as [|el els IH]; simpl.
  - constructor.
  - destruct (String.eqb_spec (id el) i); simpl.
    + now apply wi_drop.
    + now apply wi_keep.
Qed.

(** X1: called from the current render, [deleteElement] removes every
    element that carries the id (also the copies an id collision leaves) and
    keeps every other element, unchanged and in order.  Repeated, from the
    next render or from the same one, it gives the same state, and two
    deletions from successive renders give the same state in either
    order. *)
Theorem deleteElement_removes_every_copy (i j : string) (s : Designer) :
  let s1 := deleteElement (elements s) i s in
  let s2 := deleteElement (elements s) j s in
  without_id i (elements s) (elements s1) /\
  ~ In i (ids (elements s1)) /\
  deleteElement (elements s1) i s1 = s1 /\
  deleteElement (elements s) i s1 = s1 /\
  deleteElement (elements s2) i s2 = deleteElement (elements s1) j s1.
Proof.
  repeat split.
  - apply filter_without_id.
  - simpl. unfold ids. rewrite in_map_iff. intros [el [Hid Hin]].
    apply filter_In in Hin. destruct Hin as [_ Hne].
    rewrite Hid, String.eqb_refl in Hne. discriminate.
  - unfold deleteElement, setSelectedId, setElements. simpl.
    now rewrite filter_idem.
  - unfold deleteElement, setSelectedId, setElements. simpl.
    now rewrite filter_filter_comm.
Qed.

(** X2: an update that carries no [id] keeps the number, the order and the
    ids of the elements it maps over.  A second update of the same id from
    the next render amounts to one update in which the later properties win;
    a second update from the same render undoes the first, as it maps over
    the same elements; and deleting the id from the next render gives what
    deleting it at once gives. *)
Theorem updateElement_composes (i : string) (u1 u2 : Updates) (s : Designer) :
  u_id u1 = None ->
  let s1 := updateElement (elements s) i u1 s in
  ids (elements s1) = ids (elements s) /\
  updateElement (elements s1) i u2 s1 =
    updateElement (elements s) i (updates_then u1 u2) s /\
  updateElement (elements s) i u2 s1 = updateElement (elements s) i u2 s /\
  deleteElement (elements s1) i s1 = deleteElement (elements s) i s.
Proof.
  intros Hu. split; [now apply ids_updateElement|]. split; [|split].
  - unfold updateElement, setElements. simpl. f_equal.
    rewrite map_map. apply map_ext. intros el.
    destruct (String.eqb (id el) i) eqn:Hi.
    + assert (Hid : id (spread el u1) = id el) by (simpl; now rewrite Hu).
      rewrite Hid, Hi. apply spread_spread.
    + now rewrite Hi.
  - reflexivity.
  - unfold deleteElement, updateElement, setSelectedId, setElements. simpl.
    f_equal.
    induction (elements s) as [|el els IH]; simpl; [reflexivity|].
    destruct (String.eqb (id el) i) eqn:Hi.
    + assert (Hid : id (spread el u1) = id el) by (simpl; now rewrite Hu).
      rewrite Hid, Hi. simpl. exact IH.
    + rewrite Hi. simpl. now rewrite IH.
Qed.

Lemma updateElement_composes_witness :
  let s := addText "0.4fzyo82mvyr" initial in
  let s1 := updateElement (elements s) "4fzyo82mv" (drag_update 12 34) s in
  updateElement (elements s1) "4fzyo82mv" (rotation_update 90) s1 =
  updateElement (elements s) "4fzyo82mv"
                (updates_then (drag_update 12 34) (rotation_update 90)) s.
Proof.
  exact (proj1 (proj2 (updateElement_composes "4fzyo82mv" (drag_update 12 34)
                         (rotation_update 90) (addText "0.4fzyo82mvyr" initial)
                         eq_refl))).
Defined.

(** ** Selection and editor *)

Lemma find_unique_id (el : DesignElement) (els : list DesignElement) :
  NoDup (ids els) -> In el els ->
  find (fun e => String.eqb (id e) (id el)) els = Some el.
Proof.
  induction els as [|e els IH]; simpl; [intros _ []|].
  intros Hnd Hin. inversion Hnd as [|k l Hnotin Hnd']; subst.
  destruct (String.eqb_spec (id e) (id el)) as [Heq|Hne].
  - destruct Hin as [->|Hin]; [reflexivity|].
    exfalso. apply Hnotin. rewrite Heq. now apply in_map.
  - destruct Hin as [->|Hin]; [contradiction | now apply IH].
Qed.

(** X4: pressing the mouse on a rendered element whose id is non-empty and
    is carried by no other element opens the editor on that very element. *)
Theorem mouse_down_opens_editor (k : nat) (el : DesignElement) (s : Designer) :
  nth_error (filteredElements s) k = Some el ->
  NoDup (ids (elements s)) ->
  id el <> "" ->
  editor (step s (MouseDown k)) = Some (id el, el).
Proof.
  intros Hk Hnd Hne. unfold step. rewrite editor_render. simpl. rewrite Hk.
  unfold editor, selectedElement. simpl.
  destruct (String.eqb_spec (id el) "") as [Heq|_]; [contradiction|].
  apply nth_error_In in Hk. unfold filteredElements in Hk.
  apply filter_In in Hk. destruct Hk as [Hin _].
  now rewrite (find_unique_id el (elements s) Hnd Hin).
Qed.

Lemma mouse_down_opens_editor_witness :
  let s := run [ClickText "0.4fzyo82mvyr"; ClickText "0.9q1w2e3r4t5y"] initial in
  let el := newText "0.4fzyo82mvyr" (config initial) in
  editor (step s (MouseDown 0)) = Some (id el, el).
Proof.
  apply (mouse_down_opens_editor 0 (newText "0.4fzyo82mvyr" (config initial))
           (run [ClickText "0.4fzyo82mvyr"; ClickText "0.9q1w2e3r4t5y"] initial)).
  - reflexivity.
  - simpl. constructor.
    + intros [H|[]]. discriminate H.
    + constructor; [intros [] | constructor].
  - discriminate.
Defined.

Lemma length_substring (n m : nat) (s : string) :
  String.length (substring n m s) = Nat.min m (String.length s - n).
Proof.
  revert n m. induction s as [|c s IH]; intros [|n] [|m]; simpl;
    try reflexivity; try (now rewrite IH).
  rewrite IH. now rewrite Nat.sub_0_r.
Qed.

(** X5: an id is as long as the draw's string is beyond its first two
    characters, and never longer than nine characters. *)
Theorem random_id_length (random_base36 : string) :
  String.length (random_id random_base36) =
  Nat.min 9 (String.length random_base36 - 2).
Proof. apply length_substring. Qed.




(** ** What the events leave alone *)

Lemma complete_export_frame (n : nat) (b : Browser) (s : Designer) :
  elements (complete n (BrowserAnswers b) s) = elements s /\
  config (complete n (BrowserAnswers b) s) = config s /\
  selectedId (complete n (BrowserAnswers b) s) = selectedId s.
Proof.
  unfold complete.
  destruct (nth_error (pending s) n) as [[|els cfg|format filename k]|];
    try (repeat split; reflexivity).
  destruct (exportAsFile_resume _ _ _ _) as [s'|] eqn:Hres;
    [|repeat split; reflexivity].
  apply exportAsFile_resume_frame in Hres.
  destruct Hres as (Hc & Hel & Hsel & _).
  destruct (continue_frame k s') as (Hc' & Hel' & Hsel' & _).
  now rewrite Hc', Hel', Hsel', Hc, Hel, Hsel.
Qed.

(** X7: choosing a garment colour or a file, switching the view, selecting,
    opening and closing the export modal, and a whole export attempt, failed
    or not, leave every stored element as it is; in particular a text keeps
    the colour it was created with when the garment colour changes. *)
Theorem elements_untouched (e : Event) (s : Designer) :
  touches_elements e = false ->
  elements (step s e) = elements s.
Proof.
  change (elements (step s e)) with (elements (handle s e)).
  destruct e as [ | | | | | | | | | | | | | | | |n r| | ]; try destruct r;
    simpl; try discriminate; intros _.
  - now destruct (nth_error SHIRT_COLORS k) as [[name value]|].
  - unfold handleImageUpload. now destruct (hd_error files).
  - now destruct (isExporting s).
  - reflexivity.
  - now destruct (nth_error (filteredElements s) k).
  - now destruct (dom_modal s).
  - destruct (dom_modal s) as [m|]; [|reflexivity].
    now destruct (modal_isExporting m).
  - unfold complete.
    now destruct (nth_error (pending s) n) as [[|els cfg|format filename k]|].
  - apply complete_export_frame.
  - now destruct (editor s).
  - now destruct (showExportModal s).
Qed.

Lemma elements_untouched_witness :
  let s := addText "0.4fzyo82mvyr" initial in
  map color (elements (step s (ClickColor 1))) = [Some "#000000"] /\
  cfg_color (config (step s (ClickColor 1))) = "#1a1a1a".
Proof.
  split; [|reflexivity].
  rewrite (elements_untouched (ClickColor 1) (addText "0.4fzyo82mvyr" initial) eq_refl).
  reflexivity.
Defined.






(** X9: the design and the export workflow do not touch each other.  An
    event that begins or ends an export attempt leaves elements, garment and
    selection as they are; every other event leaves the busy flag, the
    retained error message and the downloads as they are, so a message stays
    until the next attempt and closing the modal does not dismiss it. *)
Theorem export_and_design_are_separate (e : Event) (s : Designer) :
  if is_export_event e
  then elements (step s e) = elements s /\ config (step s e) = config s /\
       selectedId (step s e) = selectedId s
  else isExporting (step s e) = isExporting s /\
       exportError (step s e) = exportError s /\
       downloads (step s e) = downloads s.
Proof.
  change (if is_export_event e
          then elements (handle s e) = elements s /\ config (handle s e) = config s /\
               selectedId (handle s e) = selectedId s
          else isExporting (handle s e) = isExporting s /\
               exportError (handle s e) = exportError s /\
               downloads (handle s e) = downloads s).
  destruct e; simpl; unfold text_panel;
    try (repeat match goal with
                | |- context [match ?c with _ => _ end] => destruct c
                end;
         repeat split; reflexivity).
  - unfold handleImageUpload. destruct (hd_error files); repeat split.
  - destruct (isExporting s) eqn:Hbusy; rewrite ?Hbusy; repeat split; exact Hbusy.
  - destruct r as [|result random|b]; simpl; [| |apply complete_export_frame].
    + unfold complete.
      destruct (nth_error (pending s) n) as [[|els cfg|format filename k]|];
        repeat split; reflexivity.
    + unfold complete.
      destruct (nth_error (pending s) n) as [[|els cfg|format filename k]|];
        repeat split; reflexivity.
Qed.

(** ** Downloads *)

Lemma in_flight_render (s : Designer) : in_flight (render s) = in_flight s.
Proof. reflexivity. Qed.

Lemma resume_adds_at_most_one_download (filename : string) (format : ExportFormat)
    (b : Browser) (s s' : Designer) :
  exportAsFile_resume filename format b s = Settles s' ->
  exists more,
    downloads s' = (downloads s ++ more)%list /\ (List.length more <= 1)%nat.
Proof.
  unfold exportAsFile_resume.
  destruct (captureCanvas b) as [canvas|]; [|discriminate].
  intros [= <-].
  destruct (export_try filename format b canvas) as [err|d]; simpl.
  - exists []. rewrite app_nil_r. split; [reflexivity | simpl; lia].
  - exists [d]. split; [reflexivity | simpl; lia].
Qed.

Lemma same_downloads (s s' : Designer) (clicked : nat) :
  downloads s' = downloads s -> in_flight s' = in_flight s ->
  exists more,
    downloads s' = (downloads s ++ more)%list /\
    (List.length more + in_flight s' <= in_flight s + clicked)%nat.
Proof.
  intros Hd Hf. exists []. rewrite app_nil_r, Hf. split; [exact Hd | simpl; lia].
Qed.

Lemma complete_downloads (n : nat) (r : Response) (s : Designer) :
  exists more,
    downloads (complete n r s) = (downloads s ++ more)%list /\
    (List.length more + in_flight (complete n r s) <= in_flight s)%nat.
Proof.
  assert (Hsame : forall s', downloads s' = downloads s -> in_flight s' = in_flight s ->
            exists more, downloads s' = (downloads s ++ more)%list /\
                         (List.length more + in_flight s' <= in_flight s)%nat).
  { intros s' Hd Hf. destruct (same_downloads s s' 0 Hd Hf) as [more [H1 H2]].
    exists more. split; [exact H1 | lia]. }
  unfold complete.
  destruct (nth_error (pending s) n) as [t|] eqn:Hn; [|now apply Hsame].
  pose proof (filter_remove_nth is_export n _ _ Hn) as Hcount.
  destruct t as [|els cfg|format filename k], r as [|result random|b];
    try (now apply Hsame); simpl in Hcount.
  - apply Hsame; [reflexivity|]. unfold in_flight. simpl. lia.
  - apply Hsame; [reflexivity|]. unfold in_flight. simpl. lia.
  - destruct (exportAsFile_resume _ _ _ _) as [s'|] eqn:Hres; [|now apply Hsame].
    destruct (resume_adds_at_most_one_download _ _ _ _ _ Hres) as [more [Hd Hlen]].
    apply exportAsFile_resume_frame in Hres.
    destruct Hres as (_ & _ & _ & _ & Hpe & _).
    destruct (continue_frame k s') as (_ & _ & _ & Hpe' & _ & _ & Hd').
    exists more. split.
    + rewrite Hd', Hd. reflexivity.
    + unfold in_flight in *. rewrite Hpe', Hpe. simpl. lia.
Qed.

Lemma step_downloads (s : Designer) (e : Event) :
  exists more,
    downloads (step s e) = (downloads s ++ more)%list /\
    (List.length more + in_flight (step s e) <=
     in_flight s + if is_format_click e then 1 else 0)%nat.
Proof.
  change (exists more,
    downloads (handle s e) = (downloads s ++ more)%list /\
    (List.length more + in_flight (handle s e) <=
     in_flight s + if is_format_click e then 1 else 0)%nat).
  destruct e; cbn [handle is_format_click]; unfold text_panel;
    try (repeat match goal with
                | |- context [match ?c with _ => _ end] => destruct c
                end;
         apply same_downloads; reflexivity).
  - unfold handleImageUpload.
    destruct (hd_error files); [|apply same_downloads; reflexivity].
    apply same_downloads; [reflexivity|]. now rewrite in_flight_suspend, Nat.add_0_r.
  - destruct (isExporting s); [apply same_downloads; reflexivity|].
    apply same_downloads; [reflexivity|].
    unfold handleOpenExport. now rewrite in_flight_suspend, Nat.add_0_r.
  - destruct (dom_modal s) as [m|]; [|apply same_downloads; reflexivity].
    destruct (modal_isExporting m); [apply same_downloads; reflexivity|].
    exists []. rewrite app_nil_r. split; [reflexivity|].
    unfold handleExportFormat. rewrite in_flight_suspend. simpl.
    change (in_flight (exportAsFile_begin s)) with (in_flight s). lia.
  - destruct (complete_downloads n r s) as [more [Hd Hlen]].
    exists more. split; [exact Hd | lia].
Qed.

(** X10: downloads are only ever added, at the end, and every download
    comes from an attempt: after any events, the new downloads and the
    attempts still in flight together are no more than the attempts that
    were in flight before plus the clicks on a format button.  From the
    initial state there are never more downloads than format clicks. *)
Theorem downloads_come_from_format_clicks (events : list Event) (s : Designer) :
  exists more,
    downloads (run events s) = (downloads s ++ more)%list /\
    (List.length more + in_flight (run events s) <=
     in_flight s + List.length (filter is_format_click events))%nat.
Proof.
  unfold run. revert s.
  induction events as [|e events IH]; simpl; intros s.
  - exists []. rewrite app_nil_r. split; [reflexivity | simpl; lia].
  - destruct (step_downloads s e) as [m1 [Hd1 Hl1]].
    destruct (IH (step s e)) as [m2 [Hd2 Hl2]].
    exists (m1 ++ m2)%list. split.
    + rewrite Hd2, Hd1. now rewrite app_assoc.
    + rewrite length_app. destruct (is_format_click e); simpl in *; lia.
Qed.

Lemma settled_export_has_one_outcome_witness :
  let s := exportAsFile_begin initial in
  exists s',
    exportAsFile_resume "t-shirt-design-front" jpg (rendering 600 600 1767225600000) s
      = Settles s' /\
    isExporting s' = false.
Proof.
  destruct (settled_export_has_one_outcome "t-shirt-design-front" jpg
              (rendering 600 600 1767225600000) (Some (mkCanvas 600 600))
              (exportAsFile_begin initial) eq_refl) as [s' [H1 [H2 _]]].
  exists s'. split; [exact H1 | exact H2].
Defined.

(** ** File names *)

Lemma timestamp_round_trip (t : Z) :
  parse_timestamp (timestamp_string t) = Some t.
Proof.
  unfold parse_timestamp, timestamp_string.
  rewrite NilZero.isi.
  - simpl. now rewrite DecimalZ.of_to.
  - destruct t; simpl; try discriminate.
    intros [= H]. now apply DecimalPos.Unsigned.to_uint_nonnil in H.
  - destruct t; simpl; try discriminate.
    intros [= H]. now apply DecimalPos.Unsigned.to_uint_nonnil in H.
Qed.

Lemma append_cancel_l (a x y : string) : a ++ x = a ++ y -> x = y.
Proof. induction a as [|c a IH]; simpl; [auto | intros [= H]; auto]. Qed.

Lemma string_length_append (a b : string) :
  String.length (a ++ b) = (String.length a + String.length b)%nat.
Proof. induction a as [|c a IH]; simpl; [reflexivity | now rewrite IH]. Qed.

Lemma append_cancel_suffix (x y e1 e2 : string) :
  String.length e1 = String.length e2 ->
  x ++ e1 = y ++ e2 -> x = y /\ e1 = e2.
Proof.
  intros Hlen. revert y.
  induction x as [|c x IH]; intros [|c' y]; simpl; intros H.
  - now split.
  - exfalso. apply (f_equal String.length) in H. simpl in H.
    rewrite string_length_append in H. lia.
  - exfalso. apply (f_equal String.length) in H. simpl in H.
    rewrite string_length_append in H. lia.
  - injection H as -> H. destruct (IH y H) as [-> He]. now split.
Qed.

Lemma download_name (filename : string) (format : ExportFormat) (b : Browser)
    (canvas : Canvas) (d : Download) :
  export_try filename format b (Some canvas) = inr d ->
  d_name d = filename ++ "-" ++ timestamp_string (date_now b) ++ extension format.
Proof.
  unfold export_try.
  destruct (encoder_throws b format canvas); [discriminate|].
  intros [= <-]. now destruct format.
Qed.

(** X11: the name of an exported file tells the format and the time: it is
    the base name, a dash, the timestamp in decimal and the extension of the
    format; the timestamp reads back from its decimal string; so two exports
    under one base name get the same file name only with the same format at
    the same millisecond. *)
Theorem file_name_tells_format_and_time (filename : string) (f1 f2 : ExportFormat)
    (b1 b2 : Browser) (c1 c2 : Canvas) (d1 d2 : Download) :
  export_try filename f1 b1 (Some c1) = inr d1 ->
  export_try filename f2 b2 (Some c2) = inr d2 ->
  d_name d1 = filename ++ "-" ++ timestamp_string (date_now b1) ++ extension f1 /\
  parse_timestamp (timestamp_string (date_now b1)) = Some (date_now b1) /\
  (d_name d1 = d_name d2 -> f1 = f2 /\ date_now b1 = date_now b2).
Proof.
  intros H1 H2.
  apply download_name in H1. apply download_name in H2.
  split; [exact H1|]. split; [apply timestamp_round_trip|].
  rewrite H1, H2. intros Heq.
  apply append_cancel_l in Heq. apply append_cancel_l in Heq.
  apply append_cancel_suffix in Heq; [|now destruct f1, f2].
  destruct Heq as [Hts Hext]. split.
  - destruct f1, f2; try reflexivity; discriminate Hext.
  - pose proof (timestamp_round_trip (date_now b1)) as R1.
    pose proof (timestamp_round_trip (date_now b2)) as R2.
    rewrite Hts, R2 in R1. now injection R1.
Qed.

Lemma file_name_tells_format_and_time_witness :
  let b := rendering 600 600 1767225600000 in
  exists d,
    export_try "t-shirt-design-back" pdf b (Some (mkCanvas 600 600)) = inr d /\
    d_name d = "t-shirt-design-back-1767225600000.pdf".
Proof.
  eexists. split; [reflexivity|].
  exact (proj1 (file_name_tells_format_and_time "t-shirt-design-back" pdf pdf
                  (rendering 600 600 1767225600000) (rendering 600 600 1767225600000)
                  (mkCanvas 600 600) (mkCanvas 600 600) _ _ eq_refl eq_refl)).
Defined.

(** ** Capture *)

Lemma Math_round_bounds (q : Q) :
  (q - (1 # 2) < inject_Z (Math_round q) /\ inject_Z (Math_round q) <= q + (1 # 2))%Q.
Proof.
  unfold Math_round.
  pose proof (Qfloor_le (q + (1 # 2))) as Hle.
  pose proof (Qlt_floor (q + (1 # 2))) as Hlt.
  rewrite inject_Z_plus in Hlt.
  change (inject_Z 1) with 1%Q in Hlt.
  split; lra.
Qed.

(** X12: a captured canvas has the size of the preview container rounded to
    whole pixels: each side is within half a pixel of the measured side, a
    half rounding up, and it is for exactly that size that the rendering was
    asked. *)
Theorem captured_canvas_matches_container (b : Browser) (canvas : Canvas) :
  captureCanvas b = Settles (Some canvas) ->
  exists rect_width rect_height dataUrl,
    ref_current b = Some (rect_width, rect_height) /\
    (rect_width - (1 # 2) < inject_Z (canvas_width canvas) /\
     inject_Z (canvas_width canvas) <= rect_width + (1 # 2))%Q /\
    (rect_height - (1 # 2) < inject_Z (canvas_height canvas) /\
     inject_Z (canvas_height canvas) <= rect_height + (1 # 2))%Q /\
    toPng b (canvas_width canvas) (canvas_height canvas) = Some dataUrl /\
    fires_onload b dataUrl = true.
Proof.
  unfold captureCanvas.
  destruct (ref_current b) as [[w h]|]; [|discriminate].
  destruct (toPng b (Math_round w) (Math_round h)) as [url|] eqn:Hpng; [|discriminate].
  destruct (fires_onload b url) eqn:Hload; [|discriminate].
  intros [= <-]. exists w, h, url. simpl.
  split; [reflexivity|].
  split; [apply Math_round_bounds|].
  split; [apply Math_round_bounds|].
  now split.
Qed.

Lemma captured_canvas_matches_container_witness :
  let b := rendering (1201 # 2) (2399 # 4) 1767225600000 in
  captureCanvas b = Settles (Some (mkCanvas 601 600)) /\
  exists rect_width rect_height dataUrl,
    ref_current b = Some (rect_width, rect_height) /\
    (rect_width - (1 # 2) < inject_Z 601 /\ inject_Z 601 <= rect_width + (1 # 2))%Q /\
    (rect_height - (1 # 2) < inject_Z 600 /\ inject_Z 600 <= rect_height + (1 # 2))%Q /\
    toPng b 601 600 = Some dataUrl /\
    fires_onload b dataUrl = true.
Proof.
  split; [reflexivity|].
  exact (captured_canvas_matches_container
           (rendering (1201 # 2) (2399 # 4) 1767225600000) (mkCanvas 601 600) eq_refl).
Defined.

(** X13: when the capture gives no canvas (the container reference is
    empty, or the rendering rejects), the attempt ends with the fixed
    message, the busy flag down and no download, whatever the format, and
    the encoder is not consulted. *)
Theorem capture_failure_is_reported (filename : string) (format : ExportFormat)
    (b : Browser) (s : Designer) :
  captureCanvas b = Settles None ->
  exportAsFile_resume filename format b s =
    Settles (setIsExporting false
               (setExportError (Some "Failed to capture the design canvas.") s)) /\
  (ref_current b = None \/
   exists rect_width rect_height,
     ref_current b = Some (rect_width, rect_height) /\
     toPng b (Math_round rect_width) (Math_round rect_height) = None).
Proof.
  intros Hcap. split.
  - unfold exportAsFile_resume. now rewrite Hcap.
  - unfold captureCanvas in Hcap.
    destruct (ref_current b) as [[w h]|]; [|now left].
    right. exists w, h. split; [reflexivity|].
    destruct (toPng b (Math_round w) (Math_round h)) as [url|]; [|reflexivity].
    destruct (fires_onload b url); discriminate.
Qed.

Lemma capture_failure_is_reported_witness :
  let s := exportAsFile_begin initial in
  exportAsFile_resume "t-shirt-design-front" pdf (rejecting 1767225600000) s =
    Settles (setIsExporting false
               (setExportError (Some "Failed to capture the design canvas.") s)).
Proof.
  exact (proj1 (capture_failure_is_reported "t-shirt-design-front" pdf
                  (rejecting 1767225600000) (exportAsFile_begin initial) eq_refl)).
Defined.

(** ** Theme *)

Lemma getItem_setItem_same (key value : string) (st : Storage) :
  getItem key (setItem key value st) = Some value.
Proof.
  induction st as [|[k v] st IH]; simpl.
  - now rewrite String.eqb_refl.
  - destruct (String.eqb k key) eqn:Hk; simpl.
    + now rewrite String.eqb_refl.
    + now rewrite Hk.
Qed.

Lemma getItem_setItem_other (key other value : string) (st : Storage) :
  other <> key ->
  getItem other (setItem key value st) = getItem other st.
Proof.
  intros Hne. induction st as [|[k v] st IH]; simpl.
  - destruct (String.eqb_spec key other); [congruence | reflexivity].
  - destruct (String.eqb_spec k key) as [->|Hk]; simpl.
    + destruct (String.eqb_spec key other); [congruence | reflexivity].
    + now rewrite IH.
Qed.

Lemma existsb_eqb_In (token : string) (classes : list string) :
  existsb (String.eqb token) classes = true <-> In token classes.
Proof.
  rewrite existsb_exists. split.
  - intros [c [Hin Heq]]. apply String.eqb_eq in Heq. now subst.
  - intros Hin. exists token. split; [assumption | apply String.eqb_refl].
Qed.

Lemma classList_toggle_token (token : string) (force : bool) (classes : list string) :
  In token (classList_toggle token force classes) <-> force = true.
Proof.
  unfold classList_toggle. destruct force.
  - destruct (existsb (String.eqb token) classes) eqn:Hex.
    + apply existsb_eqb_In in Hex. tauto.
    + rewrite in_app_iff. simpl. tauto.
  - rewrite filter_In, String.eqb_refl. simpl. intuition discriminate.
Qed.

Lemma classList_toggle_other (token other : string) (force : bool)
    (classes : list string) :
  other <> token ->
  (In other (classList_toggle token force classes) <-> In other classes).
Proof.
  intros Hne. unfold classList_toggle. destruct force.
  - destruct (existsb (String.eqb token) classes); [tauto|].
    rewrite in_app_iff. simpl. intuition congruence.
  - rewrite filter_In.
    destruct (String.eqb_spec other token); [contradiction|]. simpl. tauto.
Qed.

Lemma initial_theme_saved (t : Theme) (prefers_dark : bool) :
  initial_theme true (Some (theme_name t)) prefers_dark = t.
Proof. now destruct t. Qed.

Lemma toggled_page_is_synced (n : nat) (storage : Storage) (classes : list string)
    (prefers_dark : bool) :
  let p := Nat.iter n toggleTheme (ThemeProvider storage classes prefers_dark) in
  getItem theme_key (localStorage p) = Some (theme_name (theme p)).
Proof.
  destruct n; simpl; apply getItem_setItem_same.
Qed.

(** X14: the theme survives a reload.  After the first render and any number
    of toggles, a provider started on the storage left behind shows the same
    theme, whatever the system preference then is. *)
Theorem theme_survives_reload (n : nat) (storage : Storage)
    (classes classes' : list string) (prefers_dark prefers_dark' : bool) :
  let p := Nat.iter n toggleTheme (ThemeProvider storage classes prefers_dark) in
  theme (ThemeProvider (localStorage p) classes' prefers_dark') = theme p.
Proof.
  intros p. unfold ThemeProvider at 1. simpl.
  unfold p. rewrite toggled_page_is_synced. apply initial_theme_saved.
Qed.

(** X15: after the first render and [n] toggles the theme is the first one
    for even [n] and the other one for odd [n]; the document carries the
    class [dark] exactly in the dark theme; and the provider touches nothing
    else: every other class and every other storage key is as it was. *)
Theorem theme_effect_is_confined (n : nat) (storage : Storage)
    (classes : list string) (prefers_dark : bool) :
  let first := ThemeProvider storage classes prefers_dark in
  let p := Nat.iter n toggleTheme first in
  theme p = (if Nat.even n then theme first else opposite (theme first)) /\
  (In "dark" (classList p) <-> isDark (theme p) = true) /\
  (forall c, c <> "dark" -> (In c (classList p) <-> In c classes)) /\
  (forall key, key <> theme_key -> getItem key (localStorage p) = getItem key storage).
Proof.
  intros first p. split; [|split; [|split]].
  - unfold p. clear p. induction n as [|n IH].
    + reflexivity.
    + rewrite Nat.even_succ, <- Nat.negb_even.
      rewrite Nat.iter_succ.
      change (theme (toggleTheme (Nat.iter n toggleTheme first)))
        with (opposite (theme (Nat.iter n toggleTheme first))).
      rewrite IH.
      destruct (Nat.even n), (theme first); reflexivity.
  - unfold p. destruct n; simpl; apply classList_toggle_token.
  - intros c Hc. unfold p. clear p. induction n as [|n IH]; simpl.
    + now apply classList_toggle_other.
    + rewrite classList_toggle_other by assumption. exact IH.
  - intros key Hkey. unfold p. clear p. induction n as [|n IH]; simpl.
    + now apply getItem_setItem_other.
    + rewrite getItem_setItem_other by assumption. exact IH.
Qed.

(** X16: a saved value that is neither ["dark"] nor ["light"], or no saved
    value, leaves the choice to the system preference, and the first render
    writes the chosen theme over it. *)
Theorem unusable_saved_theme_is_replaced (storage : Storage) (classes : list string)
    (prefers_dark : bool) :
  getItem theme_key storage <> Some "dark" ->
  getItem theme_key storage <> Some "light" ->
  let p := ThemeProvider storage classes prefers_dark in
  theme p = (if prefers_dark then dark else light) /\
  getItem theme_key (localStorage p) = Some (if prefers_dark then "dark" else "light").
Proof.
  intros Hd Hl p.
  assert (Ht : theme p = if prefers_dark then dark else light).
  { unfold p, ThemeProvider. simpl. unfold initial_theme.
    destruct (getItem theme_key storage) as [v|]; [|reflexivity].
    destruct (String.eqb_spec v "dark") as [->|_]; [congruence|].
    destruct (String.eqb_spec v "light") as [->|_]; [congruence|].
    reflexivity. }
  split; [exact Ht|].
  pose proof (toggled_page_is_synced 0 storage classes prefers_dark) as Hs.
  change (getItem theme_key (localStorage p) = Some (theme_name (theme p))) in Hs.
  rewrite Hs, Ht. now destruct prefers_dark.
Qed.

Lemma unusable_saved_theme_is_replaced_witness :
  let p := ThemeProvider [("tshirt-designer-theme", "blue"); ("lang", "fr")] ["app"] true in
  theme p = dark /\
  getItem theme_key (localStorage p) = Some "dark".
Proof.
  apply (unusable_saved_theme_is_replaced
           [("tshirt-designer-theme", "blue"); ("lang", "fr")] ["app"] true).
  - discriminate.
  - discriminate.
Defined.

(** ** Busy flag and message *)

Lemma handle_busy_without_error (s : Designer) (e : Event) :
  busy_without_error s -> busy_without_error (handle s e).
Proof.
  unfold busy_without_error. intros Hs.
  destruct e; cbn [handle]; unfold text_panel;
    try (repeat match goal with
                | |- context [match ?c with _ => _ end] => destruct c
                end;
         exact Hs).
  - unfold handleImageUpload. destruct (hd_error files); exact Hs.
  - destruct (isExporting s) eqn:Hbusy.
    + rewrite Hbusy. exact Hs.
    + simpl. intros H. rewrite Hbusy in H. discriminate H.
  - destruct (dom_modal s) as [m|]; [|exact Hs].
    destruct (modal_isExporting m); [exact Hs | reflexivity].
  - unfold complete.
    destruct (nth_error (pending s) n) as [[|els cfg|format filename k]|];
      destruct r as [|result random|b]; try exact Hs.
    destruct (exportAsFile_resume _ _ _ _) as [s'|] eqn:Hres; [|exact Hs].
    apply exportAsFile_resume_frame in Hres.
    destruct Hres as (_ & _ & _ & _ & _ & Hidle).
    destruct (continue_frame k s') as (_ & _ & _ & _ & Hbusy' & _).
    rewrite Hbusy', Hidle. discriminate.
Qed.

(** X17: through the interface the spinner and the error message exclude
    each other: in every reachable state in which the busy flag is up, no
    error message is retained. *)
Theorem busy_excludes_error (events : list Event) :
  let s := run events initial in
  isExporting s = true -> exportError s = None.
Proof.
  enough (H : forall s, busy_without_error s -> busy_without_error (run events s)).
  { apply (H initial). intros _. reflexivity. }
  unfold run. induction events as [|e events IH]; simpl; intros s Hs.
  - exact Hs.
  - apply IH. exact (handle_busy_without_error s e Hs).
Qed.

Lemma busy_excludes_error_witness :
  let attempt b := [ClickExportDesign; Completes 0 TimerFired; ClickFormat png;
                    Completes 0 (BrowserAnswers b)] in
  let s := run (attempt (rejecting 1767225600000) ++
                [ClickExportDesign; Completes 0 TimerFired; ClickFormat jpg]) initial in
  isExporting s = true /\ exportError s = None.
Proof.
  split; [reflexivity|].
  apply (busy_excludes_error
           ([ClickExportDesign; Completes 0 TimerFired; ClickFormat png;
             Completes 0 (BrowserAnswers (rejecting 1767225600000))] ++
            [ClickExportDesign; Completes 0 TimerFired; ClickFormat jpg])).
  reflexivity.
Defined.

(** ** Gestures and views *)

Lemma same_id_same_element (a b : DesignElement) (els : list DesignElement) :
  NoDup (ids els) -> In a els -> In b els -> id a = id b -> a = b.
Proof.
  induction els as [|e els IH]; simpl; [intros _ []|].
  intros Hnd Ha Hb Hid. inversion Hnd as [|k l Hnotin Hnd']; subst.
  destruct Ha as [->|Ha], Hb as [->|Hb].
  - reflexivity.
  - exfalso. apply Hnotin. rewrite Hid. now apply in_map.
  - exfalso. apply Hnotin. rewrite <- Hid. now apply in_map.
  - now apply IH.
Qed.

Lemma updateElement_nth_other (i : string) (u : Updates) (s : Designer)
    (j : nat) (el : DesignElement) :
  nth_error (elements s) j = Some el -> id el <> i ->
  nth_error (elements (updateElement (elements s) i u s)) j = Some el.
Proof.
  intros Hj Hne. simpl. rewrite nth_error_map, Hj. simpl.
  destruct (String.eqb_spec (id el) i); [contradiction | reflexivity].
Qed.

(** X18: when the stored ids are pairwise distinct, a drag or a resize
    changes nothing outside the active view: every element anchored to
    another view stays, at its place, exactly as it was. *)
Theorem gestures_stay_on_active_view (e : Event) (s : Designer)
    (j : nat) (el : DesignElement) :
  is_gesture e = true ->
  NoDup (ids (elements s)) ->
  nth_error (elements s) j = Some el ->
  view el <> cfg_view (config s) ->
  nth_error (elements (step s e)) j = Some el.
Proof.
  intros Hg Hnd Hj Hview.
  change (nth_error (elements (handle s e)) j = Some el).
  assert (Hother : forall target, In target (filteredElements s) -> id el <> id target).
  { intros target Hin Hid. unfold filteredElements in Hin.
    apply filter_In in Hin. destruct Hin as [Hin Hv].
    apply Hview. destruct (view_eqb_spec (view target) (cfg_view (config s)));
      [|discriminate].
    rewrite (same_id_same_element el target (elements s) Hnd
               (nth_error_In _ _ Hj) Hin Hid). assumption. }
  destruct e; try discriminate; cbn [handle];
    destruct (nth_error (filteredElements s) k) as [target|] eqn:Hk;
    try assumption;
    apply updateElement_nth_other; try assumption;
    apply Hother; eapply nth_error_In; eassumption.
Qed.

Lemma gestures_stay_on_active_view_witness :
  let s := run [ClickText "0.4fzyo82mvyr"; ClickView back; ClickText "0.9q1w2e3r4t5y"]
               initial in
  nth_error (elements (step s (DragStop 0 40 60))) 0 =
  Some (newText "0.4fzyo82mvyr" (mkConfig "#ffffff" front)).
Proof.
  apply (gestures_stay_on_active_view (DragStop 0 40 60)
           (run [ClickText "0.4fzyo82mvyr"; ClickView back; ClickText "0.9q1w2e3r4t5y"]
                initial)).
  - reflexivity.
  - simpl. constructor.
    + intros [H|[]]. discriminate H.
    + constructor; [intros [] | constructor].
  - reflexivity.
  - simpl. discriminate.
Defined.
